(** * bmi-calculator: a shallow embedding of [script.js]

    The script binds DOM input events to two arithmetic formulas and a few
    display updates.  JavaScript numbers are IEEE 754 binary64 values; they
    are modelled by Rocq's primitive floats, which have the same format and
    the same rounding (to nearest, ties to even).  The formulas of the script
    are written over the interface of the arithmetic operations they use,
    which binary64 implements. *)

From Stdlib Require Import NArith ZArith QArith Qabs Qround Qpower Lqa String Ascii List Floats Lia Bool.
Import ListNotations.

#[local] Set Warnings "-inexact-float".

(** ** Arithmetic interface *)

(** The operations the script applies to numbers: numeric literals, [+],
    [*], [/] and the comparison [<] ([a > b] is [b < a]). *)
Class Arith (N : Type) : Type := {
  lit : Q -> N;
  add : N -> N -> N;
  mul : N -> N -> N;
  div : N -> N -> N;
  ltb : N -> N -> bool
}.

Declare Scope js_scope.
Delimit Scope js_scope with js.
Infix "+" := add : js_scope.
Infix "*" := mul : js_scope.
Infix "/" := div : js_scope.
Infix "<" := ltb : js_scope.
Notation "a > b" := (ltb b a) : js_scope.

(** ** Binary64 numbers *)

Module Binary64.

(** The binary64 value nearest to a rational (ties to even; overflow gives an
    infinity): the value of a numeric literal, and of a parsed decimal. *)
Definition ofQ_SF (q : Q) : spec_float :=
  match Qnum q with
  | Z0 => S754_zero false
  | Zpos n => SFdiv prec emax (S754_finite false n 0) (S754_finite false (Qden q) 0)
  | Zneg n => SFdiv prec emax (S754_finite true n 0) (S754_finite false (Qden q) 0)
  end.

Definition ofQ (q : Q) : float := SF2Prim (ofQ_SF q).

(** The exact value of a finite binary64 number; NaN and the infinities have
    none. *)
Definition toQ (x : float) : option Q :=
  match Prim2SF x with
  | S754_zero _ => Some 0%Q
  | S754_finite s m e =>
      let v := (inject_Z (Zpos m) * Qpower 2 e)%Q in
      Some (if s then Qopp v else v)
  | S754_infinity _ | S754_nan => None
  end.

(** ToBoolean on a number: NaN, +0 and -0 are falsy. *)
Definition truthy (x : float) : bool := negb (is_nan x || is_zero x).

(** [a || b] on numbers. *)
Definition orElse (a b : float) : float := if truthy a then a else b.

End Binary64.

#[export] Instance float_Arith : Arith float := {
  lit := Binary64.ofQ;
  add := PrimFloat.add;
  mul := PrimFloat.mul;
  div := PrimFloat.div;
  ltb := PrimFloat.ltb
}.

(** [a < b] on rationals, as a test. *)
Definition Qltb (a b : Q) : bool := negb (Qle_bool b a).

(** ** 1. Constants and configuration *)

Section Core.

Context {N : Type} `{Arith N}.
Local Open Scope js_scope.

Record BmiCategories : Type := {
  UNDERWEIGHT : N;
  HEALTHY : N;
  OVERWEIGHT : N
}.

Definition BMI_CATEGORIES : BmiCategories := {|
  UNDERWEIGHT := lit 18.5;
  HEALTHY := lit 24.9;
  OVERWEIGHT := lit 29.9
|}.

Definition IMPERIAL_BMI_FACTOR : N := lit 703.
Definition INCHES_PER_FOOT : N := lit 12.
Definition POUNDS_PER_STONE : N := lit 14.

(** ** 3. Core logic *)

(** [getWeightClassification(bmi)] *)
Definition getWeightClassification (bmi : N) : string :=
  if bmi < UNDERWEIGHT BMI_CATEGORIES then "underweight"%string
  else if bmi < HEALTHY BMI_CATEGORIES then "a healthy weight"%string
  else if bmi < OVERWEIGHT BMI_CATEGORIES then "overweight"%string
  else "obese"%string.

(** The object literal [{ low: ..., high: ... }]. *)
Record Range : Type := { low : N; high : N }.

(** The arithmetic of [calculateMetricBMI] inside its guard: the BMI and the
    healthy range passed to [updateBmiDisplay]. *)
Definition metricBmi (heightCm weightKg : N) : N * Range :=
  let heightM := heightCm / lit 100 in
  let bmi := weightKg / (heightM * heightM) in
  let healthyWeightLow := UNDERWEIGHT BMI_CATEGORIES * (heightM * heightM) in
  let healthyWeightHigh := HEALTHY BMI_CATEGORIES * (heightM * heightM) in
  (bmi, {| low := healthyWeightLow; high := healthyWeightHigh |}).

(** The arithmetic of [calculateImperialBMI] inside its guard. *)
Definition imperialBmi (totalHeightInches totalWeightPounds : N) : N * Range :=
  let bmi :=
    (totalWeightPounds / (totalHeightInches * totalHeightInches))
    * IMPERIAL_BMI_FACTOR in
  let healthyWeightLow :=
    (UNDERWEIGHT BMI_CATEGORIES * (totalHeightInches * totalHeightInches))
    / IMPERIAL_BMI_FACTOR in
  let healthyWeightHigh :=
    (HEALTHY BMI_CATEGORIES * (totalHeightInches * totalHeightInches))
    / IMPERIAL_BMI_FACTOR in
  (bmi, {| low := healthyWeightLow; high := healthyWeightHigh |}).

End Core.

Arguments BmiCategories N : clear implicits.
Arguments Range N : clear implicits.

(** ** Built-in functions of the language used by the script

    Strings are sequences of code units below 256.  [parseFloat] and
    [Number.prototype.toFixed] follow ECMAScript (19.2.4 and 21.1.3.3). *)

Module Builtins.

Import Binary64.
Local Open Scope string_scope.

Definition codeOf (c : ascii) : N := N_of_ascii c.

(** StrWhiteSpaceChar: TAB, LF, VT, FF, CR, SP and NBSP. *)
Definition isStrWhiteSpaceChar (c : ascii) : bool :=
  existsb (N.eqb (codeOf c)) [9; 10; 11; 12; 13; 32; 160]%N.

Fixpoint trimStart (s : string) : string :=
  match s with
  | String c s' => if isStrWhiteSpaceChar c then trimStart s' else s
  | EmptyString => s
  end.

Definition isDecimalDigit (c : ascii) : bool :=
  ((48 <=? codeOf c) && (codeOf c <=? 57))%N.

(** The longest run of decimal digits at the head of [s], accumulated onto
    [acc]; the number of digits read is added to [cnt]. *)
Fixpoint readDigits (s : string) (acc : N) (cnt : nat) : N * nat * string :=
  match s with
  | String c s' =>
      if isDecimalDigit c
      then readDigits s' (10 * acc + (codeOf c - 48))%N (S cnt)
      else (acc, cnt, s)
  | EmptyString => (acc, cnt, s)
  end.

(** ExponentPart, when one is present in full; otherwise exponent 0. *)
Definition readExponent (s : string) : Z :=
  match s with
  | String c s1 =>
      if (codeOf c =? 101)%N || (codeOf c =? 69)%N then
        let '(neg, s2) :=
          match s1 with
          | String "+" r => (false, r)
          | String "-" r => (true, r)
          | _ => (false, s1)
          end in
        let '(v, cnt, _) := readDigits s2 0 0 in
        match cnt with
        | O => 0%Z
        | S _ => if neg then (- Z.of_N v)%Z else Z.of_N v
        end
      else 0%Z
  | EmptyString => 0%Z
  end.

(** The mathematical value [m * 10^e]. *)
Definition decimalValue (m : N) (e : Z) : Q :=
  if (0 <=? e)%Z then inject_Z (Z.of_N m * 10 ^ e)
  else Qmake (Z.of_N m) (Z.to_pos (10 ^ (- e))).

(** StrUnsignedDecimalLiteral: the value of the longest prefix of [s] that
    is one, NaN when there is none. *)
Definition strUnsignedDecimalLiteral (s : string) : float :=
  if String.prefix "Infinity" s then infinity
  else
    let '(i, ci, r1) := readDigits s 0 0 in
    let '(m, cf, r2) :=
      match r1 with
      | String "." r => readDigits r i 0
      | _ => (i, O, r1)
      end in
    match (ci + cf)%nat with
    | O => nan
    | S _ => ofQ (decimalValue m (readExponent r2 - Z.of_nat cf))
    end.

(** [parseFloat(string)] *)
Definition parseFloat (string : string) : float :=
  match trimStart string with
  | String "-" r => PrimFloat.opp (strUnsignedDecimalLiteral r)
  | String "+" r => strUnsignedDecimalLiteral r
  | trimmed => strUnsignedDecimalLiteral trimmed
  end.

(** The decimal representation of a natural number, without leading zeros. *)
Definition digitChar (d : N) : ascii := ascii_of_N (48 + d).

Fixpoint decimalDigits (fuel : nat) (n : N) (acc : string) : string :=
  let acc' := String (digitChar (n mod 10)) acc in
  match fuel with
  | O => acc'
  | S fuel' => if (n <? 10)%N then acc' else decimalDigits fuel' (n / 10) acc'
  end.

Definition decimalString (n : N) : string :=
  decimalDigits (N.to_nat (N.log2 n)) n "".

Fixpoint zeros (k : nat) : string :=
  match k with
  | O => ""
  | S k' => String "0" (zeros k')
  end.

(** Steps 11.b-11.c of [toFixed]: the digits of [n] with a point before the
    last [f] of them, padded with zeros on the left first when [n] has no
    more than [f] digits. *)
Definition fixedDigits (n : N) (f : nat) : string :=
  let m := decimalString n in
  match f with
  | O => m
  | S _ =>
      let k := String.length m in
      let m := if (k <=? f)%nat then zeros (f + 1 - k) ++ m else m in
      let k := String.length m in
      substring 0 (k - f) m ++ "." ++ substring (k - f) f m
  end.

(** Number::toString on a finite value of at least 10^21, which is the
    integer [X]: the shortest digit string [s] such that [s * 10^p] rounds
    to this number (the nearest to [X] when several do, the even one on a
    tie), in exponential notation. *)
Definition roundsTo (x : float) (v : Z) : bool :=
  PrimFloat.eqb (ofQ (inject_Z v)) x.

Fixpoint shortestDigits (x : float) (X : Z) (p : nat) (fuel : nat) : Z :=
  match fuel with
  | O => X
  | S fuel' =>
      let u := (10 ^ Z.of_nat p)%Z in
      let lo := (X / u)%Z in
      let hi := (lo + 1)%Z in
      let r := (X - lo * u)%Z in
      let nearest :=
        if (2 * r <? u)%Z then lo
        else if (2 * r =? u)%Z then (if Z.even lo then lo else hi)
        else hi in
      match roundsTo x (lo * u), roundsTo x (hi * u) with
      | true, true => (nearest * u)%Z
      | true, false => (lo * u)%Z
      | false, true => (hi * u)%Z
      | false, false =>
          match p with
          | O => X
          | S p' => shortestDigits x X p' fuel'
          end
      end
  end.

Fixpoint stripZeros (rev_digits : list ascii) : list ascii :=
  match rev_digits with
  | "0"%char :: r => stripZeros r
  | _ => rev_digits
  end.

Definition exponential (v : Z) : string :=
  let all := decimalString (Z.to_N v) in
  let e := decimalString (N.of_nat (String.length all - 1)) in
  let s := string_of_list_ascii (rev (stripZeros (rev (list_ascii_of_string all)))) in
  match s with
  | String d EmptyString => String d ("e+" ++ e)
  | String d rest => String d ("." ++ rest ++ "e+" ++ e)
  | EmptyString => all
  end.

Definition toStringLarge (x : float) (X : Z) : string :=
  let n := String.length (decimalString (Z.to_N X)) in
  exponential (shortestDigits x X (n - 1) n).

(** [x.toFixed(f)] for [0 <= f <= 100]. *)
Definition toFixed (x : float) (f : nat) : string :=
  match Prim2SF x with
  | S754_nan => "NaN"
  | S754_infinity false => "Infinity"
  | S754_infinity true => "-Infinity"
  | S754_zero _ => fixedDigits 0 f
  | S754_finite sign m e =>
      let s := if sign then "-" else "" in
      let ax := (inject_Z (Zpos m) * Qpower 2 e)%Q in
      if Qle_bool (inject_Z (10 ^ 21)) ax
      then s ++ toStringLarge (PrimFloat.abs x) (Qfloor ax)
      else s ++ fixedDigits (Z.to_N (Qfloor (ax * inject_Z (10 ^ Z.of_nat f) + (1 # 2))%Q)) f
  end.

End Builtins.

Import Builtins.

(** ** 2. DOM element selection

    The elements the script selects once, by kind, and the part of the
    document state it reads or writes: the [value] of the six inputs, the
    inline [style.display] of the four containers and the [textContent] of
    the four output elements. *)

Inductive Radio : Type := metricRadio | imperialRadio.

Inductive Input : Type :=
  | metricHeightInput
  | metricWeightInput
  | imperialHeightFtInput
  | imperialHeightInInput
  | imperialWeightStInput
  | imperialWeightLbsInput.

Inductive Container : Type :=
  | metricContainer
  | imperialContainer
  | welcomeContainer
  | bmiResultContainer.

Inductive Output : Type :=
  | bmiNumberEl
  | weightClassificationEl
  | idealWeightFromEl
  | idealWeightToEl.

Definition Radio_eq_dec (a b : Radio) : {a = b} + {a <> b}.
Proof. decide equality. Defined.

Definition Input_eq_dec (a b : Input) : {a = b} + {a <> b}.
Proof. decide equality. Defined.

Definition Container_eq_dec (a b : Container) : {a = b} + {a <> b}.
Proof. decide equality. Defined.

Definition Output_eq_dec (a b : Output) : {a = b} + {a <> b}.
Proof. decide equality. Defined.

Record Dom : Type := {
  value : Input -> string;
  display : Container -> string;
  textContent : Output -> string
}.

(** [input.value = v] *)
Definition setValue (input : Input) (v : string) (d : Dom) : Dom := {|
  value := fun i => if Input_eq_dec i input then v else value d i;
  display := display d;
  textContent := textContent d
|}.

(** [container.style.display = v] *)
Definition setDisplay (container : Container) (v : string) (d : Dom) : Dom := {|
  value := value d;
  display := fun c => if Container_eq_dec c container then v else display d c;
  textContent := textContent d
|}.

(** [el.textContent = v] *)
Definition setTextContent (el : Output) (v : string) (d : Dom) : Dom := {|
  value := value d;
  display := display d;
  textContent := fun o => if Output_eq_dec o el then v else textContent d o
|}.

Definition metricInputs : list Input := [metricHeightInput; metricWeightInput].

Definition imperialInputs : list Input :=
  [imperialHeightFtInput; imperialHeightInInput;
   imperialWeightStInput; imperialWeightLbsInput].

(** ** 3. Core logic (continued): the functions that touch the document *)

Section Script.

Import Binary64.
Local Open Scope string_scope.
Local Open Scope js_scope.

(** [updateBmiDisplay(bmi, healthyRange, unit)] *)
Definition updateBmiDisplay
    (bmi : float) (healthyRange : Range float) (unit : string) (d : Dom) : Dom :=
  let d := setTextContent bmiNumberEl (toFixed bmi 1) d in
  let d := setTextContent weightClassificationEl (getWeightClassification bmi) d in
  let d := setTextContent idealWeightFromEl (toFixed (low healthyRange) 1 ++ unit) d in
  let d := setTextContent idealWeightToEl (toFixed (high healthyRange) 1 ++ unit) d in
  let d := setDisplay welcomeContainer "none" d in
  setDisplay bmiResultContainer "flex" d.

(** The constants [heightCm] and [weightKg] of [calculateMetricBMI]. *)
Definition heightCm (d : Dom) : float := parseFloat (value d metricHeightInput).
Definition weightKg (d : Dom) : float := parseFloat (value d metricWeightInput).

(** [calculateMetricBMI()] *)
Definition calculateMetricBMI (d : Dom) : Dom :=
  let heightCm := heightCm d in
  let weightKg := weightKg d in
  if (heightCm > lit 0) && (weightKg > lit 0) then
    let '(bmi, healthyRange) := metricBmi heightCm weightKg in
    updateBmiDisplay bmi healthyRange "kgs" d
  else d.

(** The constants [heightFt], [heightIn], [weightSt] and [weightLbs] of
    [calculateImperialBMI], and its two totals. *)
Definition heightFt (d : Dom) : float :=
  orElse (parseFloat (value d imperialHeightFtInput)) (lit 0).
Definition heightIn (d : Dom) : float :=
  orElse (parseFloat (value d imperialHeightInInput)) (lit 0).
Definition weightSt (d : Dom) : float :=
  orElse (parseFloat (value d imperialWeightStInput)) (lit 0).
Definition weightLbs (d : Dom) : float :=
  orElse (parseFloat (value d imperialWeightLbsInput)) (lit 0).

Definition totalHeightInches (d : Dom) : float :=
  heightFt d * INCHES_PER_FOOT + heightIn d.
Definition totalWeightPounds (d : Dom) : float :=
  weightSt d * POUNDS_PER_STONE + weightLbs d.

(** [calculateImperialBMI()] *)
Definition calculateImperialBMI (d : Dom) : Dom :=
  let totalHeightInches := totalHeightInches d in
  let totalWeightPounds := totalWeightPounds d in
  if (totalHeightInches > lit 0) && (totalWeightPounds > lit 0) then
    let '(bmi, healthyRange) := imperialBmi totalHeightInches totalWeightPounds in
    updateBmiDisplay bmi healthyRange "lbs" d
  else d.

(** ** 4. UI and event handling *)

(** [switchUnitSystem(systemToShow)] *)
Definition switchUnitSystem (systemToShow : string) (d : Dom) : Dom :=
  let isMetric := String.eqb systemToShow "metric" in
  let d := setDisplay metricContainer (if isMetric then "flex" else "none") d in
  let d := setDisplay imperialContainer (if isMetric then "none" else "flex") d in
  let d := setDisplay welcomeContainer "flex" d in
  let d := setDisplay bmiResultContainer "none" d in
  let inputsToClear := if isMetric then imperialInputs else metricInputs in
  fold_left (fun d input => setValue input "" d) inputsToClear d.

(** The events the script listens to, and the listeners it attaches, in the
    order of the [addEventListener] calls. *)
Inductive Event : Type :=
  | change (r : Radio)
  | input (i : Input).

Definition Event_eq_dec (a b : Event) : {a = b} + {a <> b}.
Proof. decide equality; [apply Radio_eq_dec | apply Input_eq_dec]. Defined.

Definition listeners : list (Event * (Dom -> Dom)) :=
  [ (change metricRadio, switchUnitSystem "metric");
    (change imperialRadio, switchUnitSystem "imperial") ]
  ++ map (fun i => (input i, calculateMetricBMI)) metricInputs
  ++ map (fun i => (input i, calculateImperialBMI)) imperialInputs.

(** Dispatching an event runs the listeners attached for it, in order. *)
Definition listenersFor (e : Event) : list (Dom -> Dom) :=
  map snd
    (filter (fun l => if Event_eq_dec e (fst l) then true else false) listeners).

Definition dispatch (e : Event) (d : Dom) : Dom :=
  fold_left (fun d listener => listener d) (listenersFor e) d.

End Script.

(** ** Documents, observations and the notions the properties are stated with *)

Section Notions.

Import Binary64.
Local Open Scope string_scope.

(** A document whose inputs and outputs are empty and whose containers have
    no inline display. *)
Definition emptyDom : Dom := {|
  value := fun _ => "";
  display := fun _ => "";
  textContent := fun _ => ""
|}.

(** The empty document with the metric, or the imperial, fields filled in. *)
Definition metricDom (height weight : string) : Dom :=
  setValue metricWeightInput weight (setValue metricHeightInput height emptyDom).

Definition imperialDom (ft inches st lbs : string) : Dom :=
  setValue imperialWeightLbsInput lbs
    (setValue imperialWeightStInput st
       (setValue imperialHeightInInput inches
          (setValue imperialHeightFtInput ft emptyDom))).

(** What the calculations can change on the page: the four output texts and
    the inline display of the welcome and results views. *)
Definition shown (d : Dom) : list string :=
  map (textContent d) [bmiNumberEl; weightClassificationEl; idealWeightFromEl; idealWeightToEl]
  ++ map (display d) [welcomeContainer; bmiResultContainer].

(** The number an imperial field stands for: what [parseFloat] makes of its
    text, or 0 when that is NaN or a zero. *)
Definition fieldOrZero (d : Dom) (i : Input) : float :=
  let parsed := parseFloat (value d i) in
  if is_nan parsed || is_zero parsed then 0%float else parsed.

(** Two documents whose six input fields hold the same values. *)
Definition sameFields (d1 d2 : Dom) : Prop := forall i, value d1 i = value d2 i.

(** A result for 170 cm and 70 kg is on display and the user has emptied both
    metric fields again. *)
Definition staleDom : Dom :=
  setValue metricWeightInput ""
    (setValue metricHeightInput "" (calculateMetricBMI (metricDom "170" "70"))).

(** A result for 180 cm and 90 kg is on display and the user has retyped the
    fields to 170 and 70; no input event has run since. *)
Definition retypedDom : Dom :=
  setValue metricWeightInput "70"
    (setValue metricHeightInput "170" (calculateMetricBMI (metricDom "180" "90"))).

(** The BMI formula of each mode at a given height, and the two ends of the
    healthy range at that height (the range does not depend on the weight). *)
Definition metricBmiAt {N} `{Arith N} (heightCm weightKg : N) : N :=
  fst (metricBmi heightCm weightKg).
Definition metricRangeAt {N} `{Arith N} (heightCm : N) : Range N :=
  snd (metricBmi heightCm heightCm).
Definition imperialBmiAt {N} `{Arith N} (totalHeightInches totalWeightPounds : N) : N :=
  fst (imperialBmi totalHeightInches totalWeightPounds).
Definition imperialRangeAt {N} `{Arith N} (totalHeightInches : N) : Range N :=
  snd (imperialBmi totalHeightInches totalHeightInches).

(** A number [toFixed] writes in fixed notation: finite, of magnitude below
    10^21. *)
Definition fixedNotation (x : float) : Prop :=
  match toQ x with
  | Some q => (Qabs q < inject_Z (10 ^ 21))%Q
  | None => False
  end.

(** The number a string of decimal digits denotes. *)
Definition digitsValue (s : string) : N :=
  fold_left (fun a c => (10 * a + (codeOf c - 48))%N) (list_ascii_of_string s) 0%N.

(** The magnitude of [q] in tenths, rounded to the nearest (halves upwards). *)
Definition tenthsOf (q : Q) : N := Z.to_N (Qfloor (Qabs q * 10 + (1 # 2))%Q).

(** Following the specification's words, [q] formatted to exactly one decimal
    place: a minus sign when it is negative, the integer part of its tenths,
    a point, and the last tenth. *)
Definition oneDecimalPlace (q : Q) : string :=
  (if Qltb q 0 then "-" else "")
  ++ decimalString (tenthsOf q / 10) ++ "." ++ decimalString (tenthsOf q mod 10).

(** The exact value of a finite number (0 for NaN and the infinities, which
    [fixedNotation] excludes). *)
Definition valueOf (x : float) : Q :=
  match toQ x with
  | Some q => q
  | None => 0%Q
  end.

(** A positive normal binary64 number: its mantissa [m] has 53 bits, and its
    value is [m * 2^e]. *)
Definition normal (x : float) (m : positive) (e : Z) : Prop :=
  Prim2SF x = S754_finite false m e /\ (2 ^ 52 <= Zpos m < 2 ^ 53)%Z.

Definition finiteValue (m : positive) (e : Z) : Q := (inject_Z (Zpos m) * 2 ^ e)%Q.

(** A positive normal number whose exponent lies between [lo] and [hi]. *)
Definition normalBetween (x : float) (lo hi : Z) : Prop :=
  exists m e, normal x m e /\ (lo <= e <= hi)%Z.

(** The spacing of the binary64 numbers next to 1, which is 2^-52: a bound
    on the relative error of one rounding. *)
Definition roundoff : Q := 1 # 4503599627370496.

(** A height or a weight of plausible magnitude: between 1e-100 and 1e100,
    where the formulas neither overflow nor underflow. *)
Definition plausible (x : float) : Prop :=
  (1e-100 <=? x)%float = true /\ (x <=? 1e100)%float = true.

(** The relative distance 2^-49 (less than 2 in 10^15). *)
Definition tolerance : Q := 1 # 562949953421312.

(** [x] is finite and within the relative distance [tolerance] of the
    finite number [c]. *)
Definition near (x c : float) : Prop :=
  match toQ x, toQ c with
  | Some q, Some t => (t * (1 - tolerance) <= q /\ q <= t * (1 + tolerance))%Q
  | _, _ => False
  end.

(** The ends of the healthy range at [height], put back into the BMI formula,
    give numbers near the thresholds, which [toFixed(1)] displays as the
    thresholds. *)
Definition endsNearThresholds
    (bmiAt : float -> float -> float) (rangeAt : float -> Range float)
    (height : float) : Prop :=
  near (bmiAt height (low (rangeAt height))) (UNDERWEIGHT BMI_CATEGORIES) /\
  near (bmiAt height (high (rangeAt height))) (HEALTHY BMI_CATEGORIES) /\
  toFixed (bmiAt height (low (rangeAt height))) 1 = "18.5" /\
  toFixed (bmiAt height (high (rangeAt height))) 1 = "24.9".

(** Up to the relative distance [tolerance] at each end, the healthy range at
    [height] is the interval of the weights classified as a healthy weight:
    the ends [l] and [h] are finite; a plausible weight classified so lies
    between [l (1 - tolerance)] and [h (1 + tolerance)]; and a plausible
    weight from [l (1 + tolerance)] to below [h (1 - tolerance)] is
    classified so. *)
Definition rangeNearHealthyWeights
    (bmiAt : float -> float -> float) (rangeAt : float -> Range float)
    (height : float) : Prop :=
  match toQ (low (rangeAt height)), toQ (high (rangeAt height)) with
  | Some l, Some h =>
      forall weight, plausible weight ->
        match toQ weight with
        | Some w =>
            (getWeightClassification (bmiAt height weight) = "a healthy weight" ->
             l * (1 - tolerance) <= w /\ w < h * (1 + tolerance))%Q /\
            ((l * (1 + tolerance) <= w /\ w < h * (1 - tolerance))%Q ->
             getWeightClassification (bmiAt height weight) = "a healthy weight")
        | None => False
        end
  | _, _ => False
  end.

(** Two documents that agree on every property of every element. *)
Definition sameDom (d1 d2 : Dom) : Prop :=
  (forall i, value d1 i = value d2 i) /\
  (forall c, display d1 c = display d2 c) /\
  (forall o, textContent d1 o = textContent d2 o).

(** The four classifications in the order of the thresholds. *)
Definition bandOf (classification : string) : nat :=
  if String.eqb classification "underweight" then 0
  else if String.eqb classification "a healthy weight" then 1
  else if String.eqb classification "overweight" then 2
  else 3.

(** A binary64 value that is NaN or has its sign bit clear. *)
Definition signClear (x : spec_float) : Prop :=
  match x with
  | S754_nan => True
  | S754_zero s | S754_infinity s | S754_finite s _ _ => s = false
  end.

(** What the user does to the page, and what the browser makes of it:
    selecting a radio fires its [change] event; typing in a field replaces
    its value and fires its [input] event. *)
Inductive UserAction : Type :=
  | selectRadio (r : Radio)
  | typeIn (i : Input) (v : string).

Definition perform (a : UserAction) (d : Dom) : Dom :=
  match a with
  | selectRadio r => dispatch (change r) d
  | typeIn i v => dispatch (input i) (setValue i v d)
  end.

(** The container an input field sits in. *)
Definition groupOf (i : Input) : Container :=
  match i with
  | metricHeightInput | metricWeightInput => metricContainer
  | _ => imperialContainer
  end.

(** A field can be typed in only while its group is displayed. *)
Definition possible (a : UserAction) (d : Dom) : Prop :=
  match a with
  | selectRadio _ => True
  | typeIn i _ => display d (groupOf i) = "flex"
  end.

(** The documents a session of possible actions leads to from [d0]. *)
Inductive session (d0 : Dom) : Dom -> Prop :=
  | session_start : session d0 d0
  | session_step (d : Dom) (a : UserAction) :
      session d0 d -> possible a d -> session d0 (perform a d).

(** The state the script keeps the page in: one input group is displayed and
    the other hidden, the fields of the hidden group are empty, and either
    the welcome view alone is displayed or the results view alone, then with
    a rendering whose range carries the unit of the displayed group. *)
Definition pageInvariant (d : Dom) : Prop :=
  exists metricShown : bool,
    display d metricContainer = (if metricShown then "flex" else "none") /\
    display d imperialContainer = (if metricShown then "none" else "flex") /\
    (forall i, groupOf i = (if metricShown then imperialContainer
                            else metricContainer) ->
       value d i = "") /\
    ((display d welcomeContainer = "flex" /\
      display d bmiResultContainer = "none") \/
     (exists bmi r,
        shown d =
          [toFixed bmi 1; getWeightClassification bmi;
           toFixed (low r) 1 ++ (if metricShown then "kgs" else "lbs");
           toFixed (high r) 1 ++ (if metricShown then "kgs" else "lbs");
           "none"; "flex"])).

End Notions.

(** * Properties *)

(** ** The built-in functions and the script on sample inputs *)

Section Samples.

Local Open Scope string_scope.
Local Open Scope float_scope.

Example literals_float :
  (lit 18.5, lit 24.9, lit 29.9, lit 703, lit 12, lit 14, lit 100, lit 0)
  = (18.5, 24.9, 29.9, 703, 12, 14, 100, 0).
Proof. reflexivity. Qed.

(** Rounding to nearest, ties to even, with subnormals and overflow. *)
Example ofQ_rounds_to_nearest :
  map Binary64.ofQ
    [0.1; 1.7; 9007199254740993; 9007199254740995; 5e-324; 2e-324; 3e-324;
     2.2250738585072011e-308; 1.7976931348623157e308; 1.7976931348623159e308;
     -24.9]%Q
  = [0.1; 1.7; 9007199254740992; 9007199254740996; 5e-324; 0; 5e-324;
     2.2250738585072011e-308; 1.7976931348623157e308; infinity; -24.9].
Proof. vm_compute. reflexivity. Qed.

Example orElse_falsy :
  map (fun x => Binary64.orElse x 0) [nan; 0; -0; -1; 5.5; infinity]
  = [0; 0; 0; -1; 5.5; infinity].
Proof. reflexivity. Qed.

Example parseFloat_numbers :
  map parseFloat
    ["170"; " 1.7"; "-0"; "1e3"; "1.e2"; ".5"; "-.5e-3x"; "1e"; "12..5";
     "+5.50kg"; "0x10"; "Infinity"; "-Infinityx"; "1e400"]
  = [170; 1.7; -0; 1000; 100; 0.5; -0.0005; 1; 12; 5.5; 0; infinity;
     neg_infinity; infinity].
Proof. reflexivity. Qed.

Example parseFloat_unparsable :
  map (fun s => is_nan (parseFloat s)) [""; "abc"; "."; "-"; "+-1"; "infinity"; "   "]
  = [true; true; true; true; true; true; true].
Proof. reflexivity. Qed.

Example toFixed_one_digit :
  map (fun x => toFixed x 1)
    [0; -0; 0.05; 0.25; 0.35; 9.95; 9.96; 99.95; -1234.56; -0.01; 1e20]
  = ["0.0"; "0.0"; "0.1"; "0.3"; "0.3"; "9.9"; "10.0"; "100.0"; "-1234.6";
     "-0.0"; "100000000000000000000.0"]%string.
Proof. vm_compute. reflexivity. Qed.

Example toFixed_other_digits :
  (map (fun x => toFixed x 0) [0.5; 1.5; 2.5; -3.7],
   map (fun x => toFixed x 3) [0.5; 1.0005; 0.0004])
  = (["1"; "2"; "3"; "-4"], ["0.500"; "1.000"; "0.000"])%string.
Proof. vm_compute. reflexivity. Qed.

(** Outside fixed notation [toFixed] does not write a decimal place. *)
Example toFixed_not_fixed :
  map (fun x => toFixed x 1)
    [nan; infinity; neg_infinity; 1e21; -1.5e22; 1180591620717411303424;
     1.7976931348623157e308]
  = ["NaN"; "Infinity"; "-Infinity"; "1e+21"; "-1.5e+22";
     "1.1805916207174113e+21"; "1.7976931348623157e+308"]%string.
Proof. vm_compute. reflexivity. Qed.

Example metric_170_70 :
  shown (calculateMetricBMI (metricDom "170" "70"))
  = ["24.2"; "a healthy weight"; "53.5kgs"; "72.0kgs"; "none"; "flex"]%string.
Proof. vm_compute. reflexivity. Qed.

Example imperial_5_9_11_0 :
  shown (calculateImperialBMI (imperialDom "5" "9" "11" "0"))
  = ["22.7"; "a healthy weight"; "125.3lbs"; "168.6lbs"; "none"; "flex"]%string.
Proof. vm_compute. reflexivity. Qed.

Example metric_0_70 :
  shown (calculateMetricBMI (metricDom "0" "70")) = [""; ""; ""; ""; ""; ""]%string.
Proof. vm_compute. reflexivity. Qed.

(** Inputs that pass the guard and leave fixed notation. *)
Example metric_extremes :
  (shown (calculateMetricBMI (metricDom "1" "1e30")),
   shown (calculateMetricBMI (metricDom "1e-200" "70")),
   shown (calculateMetricBMI (metricDom "Infinity" "Infinity")))
  = (["1e+34"; "obese"; "0.0kgs"; "0.0kgs"; "none"; "flex"],
     ["Infinity"; "obese"; "0.0kgs"; "0.0kgs"; "none"; "flex"],
     ["NaN"; "obese"; "Infinitykgs"; "Infinitykgs"; "none"; "flex"])%string.
Proof. vm_compute. reflexivity. Qed.

Example switch_after_result :
  let d := switchUnitSystem "imperial" (calculateMetricBMI (metricDom "170" "70")) in
  (map (display d) [metricContainer; imperialContainer; welcomeContainer; bmiResultContainer],
   map (value d) metricInputs)
  = (["none"; "flex"; "flex"; "none"], [""; ""])%string.
Proof. vm_compute. reflexivity. Qed.

End Samples.

(** ** The order of binary64 numbers *)

Module FloatOrder.

Lemma Prim2SF_nan (x : float) : is_nan x = true -> Prim2SF x = S754_nan.
Proof. intros Hx. unfold Prim2SF. now rewrite Hx. Qed.

Lemma Prim2SF_not_nan (x : float) : is_nan x = false -> Prim2SF x <> S754_nan.
Proof.
  intros Hx. unfold Prim2SF. rewrite Hx.
  destruct (is_zero x); [discriminate|].
  destruct (is_infinity x); [discriminate|].
  destruct (Z.frexp x) as [r ex].
  destruct (shr_fexp _ _ _ _ _) as [sh e'].
  destruct (shr_m sh); discriminate.
Qed.

Lemma SFcompare_total (a b : spec_float) :
  a <> S754_nan -> b <> S754_nan -> exists c, SFcompare a b = Some c.
Proof.
  intros Ha Hb.
  destruct a as [sa|sa| |sa ma ea], b as [sb|sb| |sb mb eb];
    try congruence; simpl; eauto.
Qed.

Lemma SFcompare_antisym (a b : spec_float) :
  SFcompare b a = option_map CompOpp (SFcompare a b).
Proof.
  destruct a as [sa|sa| |sa ma ea], b as [sb|sb| |sb mb eb]; simpl;
    try reflexivity;
    try (destruct sa; reflexivity);
    try (destruct sb; reflexivity);
    try (destruct sa, sb; reflexivity).
  change (Pos.compare_cont Eq mb ma) with (Pos.compare mb ma).
  change (Pos.compare_cont Eq ma mb) with (Pos.compare ma mb).
  rewrite (Z.compare_antisym ea eb), (Pos.compare_antisym ma mb).
  destruct sa, sb; simpl; try reflexivity;
    destruct (ea ?= eb)%Z; simpl; try reflexivity;
    destruct (ma ?= mb)%positive; reflexivity.
Qed.

(** Among numbers other than NaN, [a < b] fails exactly when [b <= a]. *)
Lemma SFltb_false_iff (a b : spec_float) :
  a <> S754_nan -> b <> S754_nan -> (SFltb a b = false <-> SFleb b a = true).
Proof.
  intros Ha Hb. unfold SFltb, SFleb. rewrite (SFcompare_antisym a b).
  destruct (SFcompare_total a b Ha Hb) as [c ->].
  destruct c; simpl; intuition congruence.
Qed.

Ltac order_cases :=
  repeat match goal with
    | H : context [(?a ?= ?b)%Z] |- _ => destruct (Z.compare_spec a b)
    | H : context [Pos.compare_cont Eq ?a ?b] |- _ =>
        change (Pos.compare_cont Eq a b) with (Pos.compare a b) in H
    | H : context [(?a ?= ?b)%positive] |- _ => destruct (Pos.compare_spec a b)
    | |- context [(?a ?= ?b)%Z] => destruct (Z.compare_spec a b)
    | |- context [Pos.compare_cont Eq ?a ?b] =>
        change (Pos.compare_cont Eq a b) with (Pos.compare a b)
    | |- context [(?a ?= ?b)%positive] => destruct (Pos.compare_spec a b)
    end.

Lemma SFltb_trans (a b c : spec_float) :
  SFltb a b = true -> SFltb b c = true -> SFltb a c = true.
Proof.
  unfold SFltb.
  destruct a as [sa|sa| |sa ma ea], b as [sb|sb| |sb mb eb],
           c as [sc|sc| |sc mc ec]; simpl;
    try discriminate; try reflexivity;
    try (destruct sa; try discriminate; try reflexivity);
    try (destruct sb; try discriminate; try reflexivity);
    try (destruct sc; try discriminate; try reflexivity);
    intros H1 H2; order_cases; simpl in *;
      try discriminate; try reflexivity; try lia.
Qed.

Lemma ltb_false_iff (x y : float) :
  is_nan x = false -> is_nan y = false ->
  (PrimFloat.ltb x y = false <-> PrimFloat.leb y x = true).
Proof.
  intros Hx Hy. rewrite ltb_spec, leb_spec.
  apply SFltb_false_iff; now apply Prim2SF_not_nan.
Qed.

Lemma ltb_trans (x y z : float) :
  PrimFloat.ltb x y = true -> PrimFloat.ltb y z = true -> PrimFloat.ltb x z = true.
Proof. rewrite !ltb_spec. apply SFltb_trans. Qed.

(** NaN compares false with everything. *)
Lemma ltb_nan_r (x y : float) : is_nan y = true -> PrimFloat.ltb x y = false.
Proof.
  intros Hy. rewrite ltb_spec, (Prim2SF_nan y Hy). unfold SFltb.
  now destruct (Prim2SF x).
Qed.

End FloatOrder.

(** ** The script in binary64, with its literals evaluated *)

Section Unfolding.

Local Open Scope string_scope.
Local Open Scope float_scope.

Lemma getWeightClassification_float (bmi : float) :
  getWeightClassification bmi =
    if bmi <? 18.5 then "underweight"
    else if bmi <? 24.9 then "a healthy weight"
    else if bmi <? 29.9 then "overweight"
    else "obese".
Proof. reflexivity. Qed.

Lemma metricBmi_float (heightCm weightKg : float) :
  metricBmi heightCm weightKg =
    let heightM := heightCm / 100 in
    (weightKg / (heightM * heightM),
     {| low := 18.5 * (heightM * heightM); high := 24.9 * (heightM * heightM) |}).
Proof. reflexivity. Qed.

Lemma imperialBmi_float (totalHeightInches totalWeightPounds : float) :
  imperialBmi totalHeightInches totalWeightPounds =
    (totalWeightPounds / (totalHeightInches * totalHeightInches) * 703,
     {| low := 18.5 * (totalHeightInches * totalHeightInches) / 703;
        high := 24.9 * (totalHeightInches * totalHeightInches) / 703 |}).
Proof. reflexivity. Qed.

Lemma calculateMetricBMI_guard (d : Dom) :
  calculateMetricBMI d =
    if (0 <? heightCm d) && (0 <? weightKg d)
    then updateBmiDisplay (fst (metricBmi (heightCm d) (weightKg d)))
                          (snd (metricBmi (heightCm d) (weightKg d))) "kgs" d
    else d.
Proof. reflexivity. Qed.

Lemma calculateImperialBMI_guard (d : Dom) :
  calculateImperialBMI d =
    if (0 <? totalHeightInches d) && (0 <? totalWeightPounds d)
    then updateBmiDisplay
           (fst (imperialBmi (totalHeightInches d) (totalWeightPounds d)))
           (snd (imperialBmi (totalHeightInches d) (totalWeightPounds d))) "lbs" d
    else d.
Proof. reflexivity. Qed.

Lemma totalHeightInches_float (d : Dom) :
  totalHeightInches d = heightFt d * 12 + heightIn d.
Proof. reflexivity. Qed.

Lemma totalWeightPounds_float (d : Dom) :
  totalWeightPounds d = weightSt d * 14 + weightLbs d.
Proof. reflexivity. Qed.

End Unfolding.

(** ** Classification *)

Section Classification.

Local Open Scope string_scope.
Local Open Scope float_scope.

(** C3: for every BMI other than NaN, the classification is "underweight"
    iff bmi < 18.5, "a healthy weight" iff 18.5 <= bmi < 24.9, "overweight"
    iff 24.9 <= bmi < 29.9 and "obese" iff 29.9 <= bmi; the boundary values
    18.5, 24.9 and 29.9 each land in the upper band. *)
Theorem getWeightClassification_bands (bmi : float) :
  is_nan bmi = false ->
  (getWeightClassification bmi = "underweight" <-> (bmi <? 18.5) = true) /\
  (getWeightClassification bmi = "a healthy weight" <->
     (18.5 <=? bmi) = true /\ (bmi <? 24.9) = true) /\
  (getWeightClassification bmi = "overweight" <->
     (24.9 <=? bmi) = true /\ (bmi <? 29.9) = true) /\
  (getWeightClassification bmi = "obese" <-> (29.9 <=? bmi) = true) /\
  getWeightClassification 18.5 = "a healthy weight" /\
  getWeightClassification 24.9 = "overweight" /\
  getWeightClassification 29.9 = "obese".
Proof.
  intros Hnan.
  pose proof (FloatOrder.ltb_false_iff bmi 18.5 Hnan eq_refl) as H1.
  pose proof (FloatOrder.ltb_false_iff bmi 24.9 Hnan eq_refl) as H2.
  pose proof (FloatOrder.ltb_false_iff bmi 29.9 Hnan eq_refl) as H3.
  pose proof (fun H => FloatOrder.ltb_trans bmi 18.5 24.9 H eq_refl) as T12.
  pose proof (fun H => FloatOrder.ltb_trans bmi 24.9 29.9 H eq_refl) as T23.
  rewrite getWeightClassification_float.
  destruct (bmi <? 18.5) eqn:E1, (bmi <? 24.9) eqn:E2, (bmi <? 29.9) eqn:E3;
    repeat split; try reflexivity; try discriminate; intros;
    repeat match goal with
      | H : _ /\ _ |- _ => destruct H
      | H : true = true -> _ |- _ => specialize (H eq_refl)
      end;
    try discriminate;
    try (apply H1; reflexivity); try (apply H2; reflexivity);
    try (apply H3; reflexivity);
    try (exfalso;
         match goal with
         | H : (?c <=? bmi) = true |- _ =>
             first [ apply H1 in H | apply H2 in H | apply H3 in H ]; discriminate
         end).
Qed.

Lemma getWeightClassification_bands_witness :
  is_nan 22 = false /\
  (getWeightClassification 22 = "a healthy weight" <->
     (18.5 <=? 22) = true /\ (22 <? 24.9) = true).
Proof.
  split; [reflexivity|].
  exact (proj1 (proj2 (getWeightClassification_bands 22 eq_refl))).
Defined.

End Classification.

(** ** The two calculations *)

Section Calculations.

Local Open Scope string_scope.
Local Open Scope float_scope.

(** What [updateBmiDisplay] leaves in the document. *)
Lemma updateBmiDisplay_spec (bmi : float) (r : Range float) (unit : string) (d : Dom) :
  let d' := updateBmiDisplay bmi r unit d in
  textContent d' bmiNumberEl = toFixed bmi 1 /\
  textContent d' weightClassificationEl = getWeightClassification bmi /\
  textContent d' idealWeightFromEl = (toFixed (low r) 1 ++ unit)%string /\
  textContent d' idealWeightToEl = (toFixed (high r) 1 ++ unit)%string /\
  display d' welcomeContainer = "none" /\
  display d' bmiResultContainer = "flex" /\
  display d' metricContainer = display d metricContainer /\
  display d' imperialContainer = display d imperialContainer /\
  value d' = value d.
Proof. repeat split. Qed.

(** C1: when the parsed height and weight are both strictly positive,
    [calculateMetricBMI] computes heightM = heightCm / 100,
    bmi = weightKg / heightM^2, the healthy range 18.5 * heightM^2 to
    24.9 * heightM^2, and passes them to [updateBmiDisplay] with unit "kgs". *)
Theorem calculateMetricBMI_computes (d : Dom) :
  (0 <? heightCm d) = true ->
  (0 <? weightKg d) = true ->
  let heightM := heightCm d / 100 in
  let bmi := weightKg d / (heightM * heightM) in
  let healthyWeightLow := 18.5 * (heightM * heightM) in
  let healthyWeightHigh := 24.9 * (heightM * heightM) in
  heightCm d = parseFloat (value d metricHeightInput) /\
  weightKg d = parseFloat (value d metricWeightInput) /\
  calculateMetricBMI d =
    updateBmiDisplay bmi {| low := healthyWeightLow; high := healthyWeightHigh |}
      "kgs" d /\
  shown (calculateMetricBMI d) =
    [toFixed bmi 1; getWeightClassification bmi;
     (toFixed healthyWeightLow 1 ++ "kgs")%string;
     (toFixed healthyWeightHigh 1 ++ "kgs")%string; "none"; "flex"].
Proof.
  intros Hh Hw. cbv zeta.
  rewrite calculateMetricBMI_guard, Hh, Hw, metricBmi_float.
  repeat split.
Qed.

Lemma calculateMetricBMI_computes_witness :
  (0 <? heightCm (metricDom "170" "70")) = true /\
  (0 <? weightKg (metricDom "170" "70")) = true /\
  calculateMetricBMI (metricDom "170" "70") =
    updateBmiDisplay (70 / (170 / 100 * (170 / 100)))
      {| low := 18.5 * (170 / 100 * (170 / 100));
         high := 24.9 * (170 / 100 * (170 / 100)) |}
      "kgs" (metricDom "170" "70").
Proof.
  split; [reflexivity|]. split; [reflexivity|].
  exact (proj1 (proj2 (proj2
    (calculateMetricBMI_computes (metricDom "170" "70") eq_refl eq_refl)))).
Defined.

Lemma orElse_fieldOrZero (d : Dom) (i : Input) :
  Binary64.orElse (parseFloat (value d i)) 0 = fieldOrZero d i.
Proof.
  unfold Binary64.orElse, Binary64.truthy, fieldOrZero. cbv zeta.
  destruct (is_nan _ || is_zero _); reflexivity.
Qed.

(** C2: [calculateImperialBMI] reads feet, inches, stone and pounds from the
    four imperial fields (each [parseFloat] of the field, or 0), computes
    totalHeightInches = feet * 12 + inches and totalWeightPounds =
    stone * 14 + pounds and, when both totals are strictly positive,
    bmi = (totalWeightPounds / totalHeightInches^2) * 703 and the healthy
    range (18.5 * totalHeightInches^2) / 703 to
    (24.9 * totalHeightInches^2) / 703, passed to [updateBmiDisplay] with
    unit "lbs". *)
Theorem calculateImperialBMI_computes (d : Dom) :
  let feet := fieldOrZero d imperialHeightFtInput in
  let inches := fieldOrZero d imperialHeightInInput in
  let stone := fieldOrZero d imperialWeightStInput in
  let pounds := fieldOrZero d imperialWeightLbsInput in
  let totalHeight := feet * 12 + inches in
  let totalWeight := stone * 14 + pounds in
  heightFt d = feet /\ heightIn d = inches /\
  weightSt d = stone /\ weightLbs d = pounds /\
  totalHeightInches d = totalHeight /\
  totalWeightPounds d = totalWeight /\
  ((0 <? totalHeight) = true ->
   (0 <? totalWeight) = true ->
   let h2 := totalHeight * totalHeight in
   let bmi := totalWeight / h2 * 703 in
   let healthyWeightLow := 18.5 * h2 / 703 in
   let healthyWeightHigh := 24.9 * h2 / 703 in
   calculateImperialBMI d =
     updateBmiDisplay bmi {| low := healthyWeightLow; high := healthyWeightHigh |}
       "lbs" d /\
   shown (calculateImperialBMI d) =
     [toFixed bmi 1; getWeightClassification bmi;
      (toFixed healthyWeightLow 1 ++ "lbs")%string;
      (toFixed healthyWeightHigh 1 ++ "lbs")%string; "none"; "flex"]).
Proof.
  cbv zeta.
  assert (Hft : heightFt d = fieldOrZero d imperialHeightFtInput)
    by apply orElse_fieldOrZero.
  assert (Hin : heightIn d = fieldOrZero d imperialHeightInInput)
    by apply orElse_fieldOrZero.
  assert (Hst : weightSt d = fieldOrZero d imperialWeightStInput)
    by apply orElse_fieldOrZero.
  assert (Hlb : weightLbs d = fieldOrZero d imperialWeightLbsInput)
    by apply orElse_fieldOrZero.
  assert (Hh : totalHeightInches d =
               fieldOrZero d imperialHeightFtInput * 12
               + fieldOrZero d imperialHeightInInput)
    by (rewrite totalHeightInches_float, Hft, Hin; reflexivity).
  assert (Hw : totalWeightPounds d =
               fieldOrZero d imperialWeightStInput * 14
               + fieldOrZero d imperialWeightLbsInput)
    by (rewrite totalWeightPounds_float, Hst, Hlb; reflexivity).
  repeat (split; [assumption|]).
  intros Gh Gw.
  rewrite calculateImperialBMI_guard, Hh, Hw, Gh, Gw, imperialBmi_float.
  split; reflexivity.
Qed.

Lemma calculateImperialBMI_computes_witness :
  totalHeightInches (imperialDom "5" "9" "11" "7") = 69 /\
  totalWeightPounds (imperialDom "5" "9" "11" "7") = 161 /\
  shown (calculateImperialBMI (imperialDom "5" "9" "11" "7")) =
    [toFixed (161 / (69 * 69) * 703) 1;
     getWeightClassification (161 / (69 * 69) * 703);
     (toFixed (18.5 * (69 * 69) / 703) 1 ++ "lbs")%string;
     (toFixed (24.9 * (69 * 69) / 703) 1 ++ "lbs")%string; "none"; "flex"] /\
  shown (calculateImperialBMI (imperialDom "5" "9" "11" "7")) =
    ["23.8"; "a healthy weight"; "125.3lbs"; "168.6lbs"; "none"; "flex"].
Proof.
  destruct (calculateImperialBMI_computes (imperialDom "5" "9" "11" "7"))
    as (_ & _ & _ & _ & Hh & Hw & Hrender).
  split; [rewrite Hh; reflexivity|]. split; [rewrite Hw; reflexivity|].
  split; [exact (proj2 (Hrender eq_refl eq_refl))|].
  vm_compute. reflexivity.
Defined.

(** C4: when the relevant height or weight is not strictly positive, which
    includes a NaN in the metric path, both calculations return the document
    as it was: nothing is written and no visibility changes. *)
Theorem invalid_input_leaves_document (d : Dom) :
  ((0 <? heightCm d) = false \/ (0 <? weightKg d) = false ->
   calculateMetricBMI d = d) /\
  (is_nan (heightCm d) = true \/ is_nan (weightKg d) = true ->
   calculateMetricBMI d = d) /\
  ((0 <? totalHeightInches d) = false \/ (0 <? totalWeightPounds d) = false ->
   calculateImperialBMI d = d).
Proof.
  assert (Hm : (0 <? heightCm d) = false \/ (0 <? weightKg d) = false ->
               calculateMetricBMI d = d).
  { intros H. rewrite calculateMetricBMI_guard.
    destruct H as [-> | ->]; [reflexivity|]. now rewrite andb_false_r. }
  split; [exact Hm|]. split.
  - intros [H | H]; apply Hm; [left | right]; now apply FloatOrder.ltb_nan_r.
  - intros H. rewrite calculateImperialBMI_guard.
    destruct H as [-> | ->]; [reflexivity|]. now rewrite andb_false_r.
Qed.

Lemma invalid_input_leaves_document_witness :
  calculateMetricBMI (metricDom "0" "70") = metricDom "0" "70" /\
  calculateMetricBMI (metricDom "abc" "70") = metricDom "abc" "70" /\
  calculateImperialBMI (imperialDom "5" "9" "" "") = imperialDom "5" "9" "" "".
Proof.
  pose proof (invalid_input_leaves_document (metricDom "0" "70")) as H0.
  pose proof (invalid_input_leaves_document (metricDom "abc" "70")) as H1.
  pose proof (invalid_input_leaves_document (imperialDom "5" "9" "" "")) as H2.
  split; [apply (proj1 H0); left; reflexivity|].
  split; [apply (proj1 (proj2 H1)); left; reflexivity|].
  apply (proj2 (proj2 H2)); right; reflexivity.
Defined.

(** C10: the imperial guard tests the two totals only: for every content of
    the four fields with feet * 12 + inches > 0 and stone * 14 + pounds > 0
    a result is rendered, also when a single field is negative; with
    feet = -1 and inches = 20 the total height is 8 and a result is
    displayed. *)
Theorem calculateImperialBMI_checks_totals_only (d : Dom) :
  let feet := fieldOrZero d imperialHeightFtInput in
  let inches := fieldOrZero d imperialHeightInInput in
  let stone := fieldOrZero d imperialWeightStInput in
  let pounds := fieldOrZero d imperialWeightLbsInput in
  (0 <? feet * 12 + inches) = true ->
  (0 <? stone * 14 + pounds) = true ->
  let bmi := (stone * 14 + pounds)
             / ((feet * 12 + inches) * (feet * 12 + inches)) * 703 in
  let d' := calculateImperialBMI d in
  display d' bmiResultContainer = "flex" /\
  display d' welcomeContainer = "none" /\
  textContent d' bmiNumberEl = toFixed bmi 1 /\
  textContent d' weightClassificationEl = getWeightClassification bmi /\
  (let e := imperialDom "-1" "20" "10" "5" in
   fieldOrZero e imperialHeightFtInput = -1 /\
   fieldOrZero e imperialHeightFtInput * 12
     + fieldOrZero e imperialHeightInInput = 8 /\
   shown (calculateImperialBMI e) =
     ["1592.7"; "obese"; "1.7lbs"; "2.3lbs"; "none"; "flex"]) /\
  (let e := imperialDom "1" "-4" "" "154" in
   fieldOrZero e imperialHeightInInput = -4 /\
   fieldOrZero e imperialWeightStInput = 0 /\
   shown (calculateImperialBMI e) =
     ["1691.6"; "obese"; "1.7lbs"; "2.3lbs"; "none"; "flex"]).
Proof.
  cbv zeta. intros Gh Gw.
  rewrite calculateImperialBMI_guard.
  rewrite totalHeightInches_float, totalWeightPounds_float.
  unfold heightFt, heightIn, weightSt, weightLbs.
  change (lit 0 : float) with 0.
  rewrite !orElse_fieldOrZero, Gh, Gw, imperialBmi_float.
  split; [reflexivity|]. split; [reflexivity|].
  split; [reflexivity|]. split; [reflexivity|].
  split; (split; [reflexivity|]); (split; [reflexivity|]);
    vm_compute; reflexivity.
Qed.

Lemma calculateImperialBMI_checks_totals_only_witness :
  (0 <? fieldOrZero (imperialDom "-1" "20" "10" "5") imperialHeightFtInput * 12
        + fieldOrZero (imperialDom "-1" "20" "10" "5") imperialHeightInInput)
    = true /\
  (0 <? fieldOrZero (imperialDom "-1" "20" "10" "5") imperialWeightStInput * 14
        + fieldOrZero (imperialDom "-1" "20" "10" "5") imperialWeightLbsInput)
    = true /\
  display (calculateImperialBMI (imperialDom "-1" "20" "10" "5"))
    bmiResultContainer = "flex".
Proof.
  split; [reflexivity|]. split; [reflexivity|].
  exact (proj1 (calculateImperialBMI_checks_totals_only
                  (imperialDom "-1" "20" "10" "5") eq_refl eq_refl)).
Defined.

End Calculations.

(** ** Switching the unit system *)

Section Switching.

Local Open Scope string_scope.

(** C5: from every document, [switchUnitSystem] with target "metric" or
    "imperial" shows the input group of the target, hides the other group,
    sets the value of every field of the hidden group (both metric fields,
    or all four imperial fields) to the empty string, hides the results view
    and shows the welcome view.  The fields of the shown group and the output
    texts are left as they were.  The function is total: it has a result on
    every document. *)
Theorem switchUnitSystem_effect (d : Dom) :
  (let d' := switchUnitSystem "metric" d in
   display d' metricContainer = "flex" /\
   display d' imperialContainer = "none" /\
   value d' imperialHeightFtInput = "" /\
   value d' imperialHeightInInput = "" /\
   value d' imperialWeightStInput = "" /\
   value d' imperialWeightLbsInput = "" /\
   value d' metricHeightInput = value d metricHeightInput /\
   value d' metricWeightInput = value d metricWeightInput /\
   display d' bmiResultContainer = "none" /\
   display d' welcomeContainer = "flex" /\
   textContent d' = textContent d) /\
  (let d' := switchUnitSystem "imperial" d in
   display d' imperialContainer = "flex" /\
   display d' metricContainer = "none" /\
   value d' metricHeightInput = "" /\
   value d' metricWeightInput = "" /\
   value d' imperialHeightFtInput = value d imperialHeightFtInput /\
   value d' imperialHeightInInput = value d imperialHeightInInput /\
   value d' imperialWeightStInput = value d imperialWeightStInput /\
   value d' imperialWeightLbsInput = value d imperialWeightLbsInput /\
   display d' bmiResultContainer = "none" /\
   display d' welcomeContainer = "flex" /\
   textContent d' = textContent d) /\
  (forall i, groupOf i = imperialContainer ->
     value (switchUnitSystem "metric" d) i = "") /\
  (forall i, groupOf i = metricContainer ->
     value (switchUnitSystem "imperial" d) i = "").
Proof.
  split; [cbv zeta; repeat split|].
  split; [cbv zeta; repeat split|].
  split; intros i Hi; destruct i; try discriminate Hi; reflexivity.
Qed.

End Switching.

(** ** Unparsable fields *)

Section Unparsable.

Import Binary64.
Local Open Scope string_scope.
Local Open Scope float_scope.

Lemma orElse_nan (x y : float) : is_nan x = true -> orElse x y = y.
Proof. intros Hx. unfold orElse, truthy. now rewrite Hx. Qed.

Lemma orElse_not_nan (x y : float) :
  is_nan y = false -> is_nan (orElse x y) = false.
Proof.
  intros Hy. unfold orElse, truthy.
  destruct (is_nan x) eqn:Hx; simpl; [exact Hy|].
  destruct (is_zero x); simpl; [exact Hy | exact Hx].
Qed.

(** The six observable parts of the display that the calculations write. *)
Lemma shown_updateBmiDisplay (bmi : float) (r : Range float) (unit : string) (d : Dom) :
  shown (updateBmiDisplay bmi r unit d) =
    [toFixed bmi 1; getWeightClassification bmi;
     (toFixed (low r) 1 ++ unit)%string; (toFixed (high r) 1 ++ unit)%string;
     "none"; "flex"].
Proof. reflexivity. Qed.

Lemma shown_setValue (i : Input) (v : string) (d : Dom) :
  shown (setValue i v d) = shown d.
Proof. reflexivity. Qed.

(** The display after [calculateImperialBMI] depends on the document through
    the four readings and the display before only. *)
Lemma shown_calculateImperialBMI_ext (d e : Dom) :
  heightFt d = heightFt e -> heightIn d = heightIn e ->
  weightSt d = weightSt e -> weightLbs d = weightLbs e ->
  shown d = shown e ->
  shown (calculateImperialBMI d) = shown (calculateImperialBMI e).
Proof.
  intros Hft Hin Hst Hlbs Hs.
  rewrite !calculateImperialBMI_guard.
  rewrite !totalHeightInches_float, !totalWeightPounds_float.
  rewrite Hft, Hin, Hst, Hlbs.
  destruct (_ && _); [|exact Hs].
  now rewrite !shown_updateBmiDisplay.
Qed.

(** C6: in [calculateImperialBMI] each of the four fields that does not parse
    (its [parseFloat] is NaN) reads as 0, no reading is ever NaN, and the
    display that results is the one obtained with "0" typed in that field.
    In the metric path an unparsable field reads as NaN. *)
Theorem imperial_unparsable_reads_zero (d : Dom) :
  (is_nan (parseFloat (value d imperialHeightFtInput)) = true -> heightFt d = 0) /\
  (is_nan (parseFloat (value d imperialHeightInInput)) = true -> heightIn d = 0) /\
  (is_nan (parseFloat (value d imperialWeightStInput)) = true -> weightSt d = 0) /\
  (is_nan (parseFloat (value d imperialWeightLbsInput)) = true -> weightLbs d = 0) /\
  (is_nan (heightFt d) = false /\ is_nan (heightIn d) = false /\
   is_nan (weightSt d) = false /\ is_nan (weightLbs d) = false) /\
  (forall i, In i imperialInputs ->
     is_nan (parseFloat (value d i)) = true ->
     shown (calculateImperialBMI d) =
     shown (calculateImperialBMI (setValue i "0" d))) /\
  (is_nan (parseFloat (value d metricHeightInput)) = true ->
   is_nan (heightCm d) = true) /\
  (is_nan (parseFloat (value d metricWeightInput)) = true ->
   is_nan (weightKg d) = true).
Proof.
  repeat split; try (intros Hn; now apply orElse_nan);
    try (now apply orElse_not_nan); try (intros Hn; exact Hn).
  intros i Hi Hn. simpl in Hi.
  apply shown_calculateImperialBMI_ext;
    try apply shown_setValue;
    repeat (destruct Hi as [<- | Hi];
            [ first [ reflexivity
                    | unfold heightFt, heightIn, weightSt, weightLbs;
                      now rewrite (orElse_nan _ _ Hn) ] | ]);
    contradiction.
Qed.

Lemma imperial_unparsable_reads_zero_witness :
  heightIn (imperialDom "5" "abc" "11" "") = 0 /\
  weightLbs (imperialDom "5" "abc" "11" "") = 0 /\
  shown (calculateImperialBMI (imperialDom "5" "abc" "11" "")) =
  shown (calculateImperialBMI (imperialDom "5" "0" "11" "")) /\
  is_nan (heightCm (metricDom "abc" "70")) = true.
Proof.
  destruct (imperial_unparsable_reads_zero (imperialDom "5" "abc" "11" ""))
    as (_ & Hin & _ & Hlbs & _ & Hshown & _).
  destruct (imperial_unparsable_reads_zero (metricDom "abc" "70"))
    as (_ & _ & _ & _ & _ & _ & Hcm & _).
  split; [apply Hin; reflexivity|].
  split; [apply Hlbs; reflexivity|].
  split; [apply (Hshown imperialHeightInInput); [right; left|]; reflexivity|].
  apply Hcm; reflexivity.
Defined.

End Unparsable.

(** ** What the display depends on *)

Section Dependence.

Local Open Scope string_scope.
Local Open Scope float_scope.

Ltac run_listeners :=
  unfold dispatch;
  cbv -[calculateMetricBMI calculateImperialBMI switchUnitSystem].

Lemma dispatch_input_metric (i : Input) (d : Dom) :
  In i metricInputs -> dispatch (input i) d = calculateMetricBMI d.
Proof.
  intros Hi. simpl in Hi.
  repeat (destruct Hi as [<- | Hi]; [run_listeners; reflexivity|]).
  contradiction.
Qed.

Lemma dispatch_input_imperial (i : Input) (d : Dom) :
  In i imperialInputs -> dispatch (input i) d = calculateImperialBMI d.
Proof.
  intros Hi. simpl in Hi.
  repeat (destruct Hi as [<- | Hi]; [run_listeners; reflexivity|]).
  contradiction.
Qed.

Lemma dispatch_change (r : Radio) (d : Dom) :
  dispatch (change r) d =
    switchUnitSystem (match r with
                      | metricRadio => "metric"
                      | imperialRadio => "imperial"
                      end) d.
Proof. destruct r; run_listeners; reflexivity. Qed.

(** C9 as stated fails: the display is not a function of the six fields
    alone.  With all fields empty, a fresh document and one that shows an
    earlier result both keep what they showed. *)
Lemma display_depends_on_prior_display :
  sameFields emptyDom staleDom /\
  shown (dispatch (input metricHeightInput) emptyDom) =
    [""; ""; ""; ""; ""; ""] /\
  shown (dispatch (input metricHeightInput) staleDom) =
    ["24.2"; "a healthy weight"; "53.5kgs"; "72.0kgs"; "none"; "flex"] /\
  shown (dispatch (input metricHeightInput) emptyDom) <>
  shown (dispatch (input metricHeightInput) staleDom).
Proof.
  split; [intros i; destruct i; vm_compute; reflexivity|].
  split; [vm_compute; reflexivity|]. split; [vm_compute; reflexivity|].
  intros H; vm_compute in H; discriminate H.
Qed.

(** C9 (amended): an input event on either metric field runs
    [calculateMetricBMI] and one on any of the four imperial fields runs
    [calculateImperialBMI], whichever field it was.  For two documents with
    the same field values and two events of the same group, when the guard
    of the calculation holds both runs render the same texts and the same
    visibility of the welcome and results views; when it fails each run
    leaves its own document as it was. *)
Theorem rendered_output_depends_on_fields (d1 d2 : Dom) :
  sameFields d1 d2 ->
  (forall i,
     dispatch (input i) d1 =
       match i with
       | metricHeightInput | metricWeightInput => calculateMetricBMI d1
       | _ => calculateImperialBMI d1
       end) /\
  (forall i j, groupOf i = metricContainer -> groupOf j = metricContainer ->
     let guard :=
       (0 <? parseFloat (value d1 metricHeightInput))
       && (0 <? parseFloat (value d1 metricWeightInput)) in
     (guard = true ->
      shown (dispatch (input i) d1) = shown (dispatch (input j) d2)) /\
     (guard = false ->
      dispatch (input i) d1 = d1 /\ dispatch (input j) d2 = d2)) /\
  (forall i j, groupOf i = imperialContainer -> groupOf j = imperialContainer ->
     let guard :=
       (0 <? fieldOrZero d1 imperialHeightFtInput * 12
             + fieldOrZero d1 imperialHeightInInput)
       && (0 <? fieldOrZero d1 imperialWeightStInput * 14
                + fieldOrZero d1 imperialWeightLbsInput) in
     (guard = true ->
      shown (dispatch (input i) d1) = shown (dispatch (input j) d2)) /\
     (guard = false ->
      dispatch (input i) d1 = d1 /\ dispatch (input j) d2 = d2)).
Proof.
  intros Hsame.
  assert (Hcm : heightCm d2 = heightCm d1) by (unfold heightCm; now rewrite Hsame).
  assert (Hkg : weightKg d2 = weightKg d1) by (unfold weightKg; now rewrite Hsame).
  assert (Hh : totalHeightInches d2 = totalHeightInches d1)
    by (unfold totalHeightInches, heightFt, heightIn; now rewrite !Hsame).
  assert (Hw : totalWeightPounds d2 = totalWeightPounds d1)
    by (unfold totalWeightPounds, weightSt, weightLbs; now rewrite !Hsame).
  assert (Hrun : forall d i,
            dispatch (input i) d =
              match i with
              | metricHeightInput | metricWeightInput => calculateMetricBMI d
              | _ => calculateImperialBMI d
              end).
  { intros d i. destruct i;
      first [ apply dispatch_input_metric | apply dispatch_input_imperial ];
      simpl; auto 6. }
  split; [apply Hrun|]. split.
  - intros i j Hi Hj. cbv zeta. rewrite (Hrun d1 i), (Hrun d2 j).
    destruct i; try discriminate Hi; destruct j; try discriminate Hj;
      rewrite !calculateMetricBMI_guard, Hcm, Hkg;
      change (heightCm d1) with (parseFloat (value d1 metricHeightInput));
      change (weightKg d1) with (parseFloat (value d1 metricWeightInput));
      (split; intros ->; [reflexivity | split; reflexivity]).
  - intros i j Hi Hj. cbv zeta. rewrite (Hrun d1 i), (Hrun d2 j).
    assert (Eh : totalHeightInches d1 =
                 fieldOrZero d1 imperialHeightFtInput * 12
                 + fieldOrZero d1 imperialHeightInInput).
    { rewrite totalHeightInches_float. unfold heightFt, heightIn.
      change (lit 0 : float) with 0. now rewrite !orElse_fieldOrZero. }
    assert (Ew : totalWeightPounds d1 =
                 fieldOrZero d1 imperialWeightStInput * 14
                 + fieldOrZero d1 imperialWeightLbsInput).
    { rewrite totalWeightPounds_float. unfold weightSt, weightLbs.
      change (lit 0 : float) with 0. now rewrite !orElse_fieldOrZero. }
    destruct i; try discriminate Hi; destruct j; try discriminate Hj;
      rewrite !calculateImperialBMI_guard, Hh, Hw, Eh, Ew;
      (split; intros ->; [reflexivity | split; reflexivity]).
Qed.

Lemma rendered_output_depends_on_fields_witness :
  sameFields (metricDom "170" "70") retypedDom /\
  shown (metricDom "170" "70") = [""; ""; ""; ""; ""; ""] /\
  shown retypedDom =
    ["27.8"; "overweight"; "59.9kgs"; "80.7kgs"; "none"; "flex"] /\
  shown (dispatch (input metricHeightInput) (metricDom "170" "70")) =
  shown (dispatch (input metricWeightInput) retypedDom) /\
  shown (dispatch (input metricWeightInput) retypedDom) =
    ["24.2"; "a healthy weight"; "53.5kgs"; "72.0kgs"; "none"; "flex"].
Proof.
  assert (Hsame : sameFields (metricDom "170" "70") retypedDom)
    by (intros i; destruct i; vm_compute; reflexivity).
  split; [exact Hsame|].
  split; [vm_compute; reflexivity|]. split; [vm_compute; reflexivity|].
  split; [|vm_compute; reflexivity].
  destruct (rendered_output_depends_on_fields _ _ Hsame) as (_ & Hm & _).
  apply (Hm metricHeightInput metricWeightInput eq_refl eq_refl).
  vm_compute. reflexivity.
Defined.

End Dependence.

(** ** The healthy range and the thresholds *)


Section HealthyRange.

Local Open Scope string_scope.

Lemma metricRangeAt_any {N} `{Arith N} (heightCm weightKg : N) :
  snd (metricBmi heightCm weightKg) = metricRangeAt heightCm.
Proof. reflexivity. Qed.

Lemma imperialRangeAt_any {N} `{Arith N} (totalHeightInches totalWeightPounds : N) :
  snd (imperialBmi totalHeightInches totalWeightPounds) = imperialRangeAt totalHeightInches.
Proof. reflexivity. Qed.

(** C8 as stated fails in binary64: the BMI of a range end is not always the
    threshold.  At 172 cm the upper end gives 24.899999999999995 (classified
    as a healthy weight), at 186 cm the lower end gives 18.500000000000004,
    and at 70 inches the upper end gives 24.900000000000002. *)
Lemma range_ends_miss_thresholds_in_binary64 :
  ((0 <? 172) = true /\
   metricBmiAt 172 (high (metricRangeAt 172)) = 24.899999999999995 /\
   (metricBmiAt 172 (high (metricRangeAt 172)) =? 24.9) = false /\
   getWeightClassification (metricBmiAt 172 (high (metricRangeAt 172)))
     = "a healthy weight")%float /\
  ((0 <? 186) = true /\
   metricBmiAt 186 (low (metricRangeAt 186)) = 18.500000000000004 /\
   (metricBmiAt 186 (low (metricRangeAt 186)) =? 18.5) = false)%float /\
  ((0 <? 70) = true /\
   imperialBmiAt 70 (high (imperialRangeAt 70)) = 24.900000000000002 /\
   (imperialBmiAt 70 (high (imperialRangeAt 70)) =? 24.9) = false)%float.
Proof. repeat split. Qed.

Local Open Scope Q_scope.

Lemma Qltb_lt (a b : Q) : Qltb a b = true <-> a < b.
Proof.
  unfold Qltb. rewrite negb_true_iff, <- not_true_iff_false, Qle_bool_iff.
  split; [apply Qnot_le_lt | apply Qlt_not_le].
Qed.

Lemma Qltb_ge (a b : Q) : Qltb a b = false <-> b <= a.
Proof. unfold Qltb. now rewrite negb_false_iff, Qle_bool_iff. Qed.

End HealthyRange.

(** ** Formatting to one decimal place *)

Section Formatting.

Import Binary64.
Local Open Scope string_scope.

Lemma append_assoc (a b c : string) : (a ++ b) ++ c = a ++ (b ++ c).
Proof. induction a as [|ch a IH]; simpl; [reflexivity | now rewrite IH]. Qed.

Lemma length_append (a b : string) :
  String.length (a ++ b) = (String.length a + String.length b)%nat.
Proof. induction a as [|ch a IH]; simpl; [reflexivity | now rewrite IH]. Qed.

Lemma substring_all (a : string) : substring 0 (String.length a) a = a.
Proof. induction a as [|ch a IH]; simpl; [reflexivity | now rewrite IH]. Qed.

Lemma substring_append_l (a b : string) :
  substring 0 (String.length a) (a ++ b) = a.
Proof. induction a as [|ch a IH]; simpl; [now destruct b | now rewrite IH]. Qed.

Lemma substring_append_r (a b : string) (n : nat) :
  substring (String.length a) n (a ++ b) = substring 0 n b.
Proof. induction a as [|ch a IH]; simpl; [reflexivity | exact IH]. Qed.

Lemma decimalDigits_acc (fuel : nat) (n : N) (acc : string) :
  decimalDigits fuel n acc = decimalDigits fuel n "" ++ acc.
Proof.
  revert n acc. induction fuel as [|fuel IH]; intros n acc; simpl.
  - reflexivity.
  - destruct (n <? 10)%N; [reflexivity|].
    rewrite (IH _ (String _ acc)), (IH _ (String _ "")), append_assoc.
    reflexivity.
Qed.

Lemma pow2_succ (f : nat) : (2 ^ N.of_nat (S f) = 2 * 2 ^ N.of_nat f)%N.
Proof. now rewrite Nat2N.inj_succ, N.pow_succ_r'. Qed.

Lemma pow2_pos (f : nat) : (0 < 2 ^ N.of_nat f)%N.
Proof. apply N.neq_0_lt_0, N.pow_nonzero. discriminate. Qed.

(** The digits do not depend on the fuel once there is enough of it. *)
Lemma decimalDigits_fuel (f1 f2 : nat) (n : N) (acc : string) :
  (n < 10 * 2 ^ N.of_nat f1)%N -> (n < 10 * 2 ^ N.of_nat f2)%N ->
  decimalDigits f1 n acc = decimalDigits f2 n acc.
Proof.
  revert f2 n acc. induction f1 as [|f1 IH]; intros f2 n acc H1 H2.
  - simpl in H1. destruct f2 as [|f2]; simpl; [reflexivity|].
    destruct (N.ltb_spec n 10); [reflexivity | lia].
  - simpl. destruct (N.ltb_spec n 10) as [Hlt | Hge].
    + destruct f2 as [|f2]; simpl; [reflexivity|].
      destruct (N.ltb_spec n 10); [reflexivity | lia].
    + destruct f2 as [|f2]; [simpl in H2; lia|].
      simpl. destruct (N.ltb_spec n 10); [lia|].
      rewrite pow2_succ in H1, H2.
      pose proof (pow2_pos f1). pose proof (pow2_pos f2).
      apply IH; apply N.Div0.div_lt_upper_bound; lia.
Qed.

Lemma decimalString_fuel (n : N) :
  (n < 10 * 2 ^ N.of_nat (N.to_nat (N.log2 n)))%N.
Proof.
  rewrite N2Nat.id. destruct (N.eq_dec n 0) as [-> | Hn]; [reflexivity|].
  pose proof (N.log2_spec n ltac:(lia)) as [_ Hup].
  rewrite N.pow_succ_r' in Hup. lia.
Qed.

Lemma decimalString_small (n : N) :
  (n < 10)%N -> decimalString n = String (digitChar n) "".
Proof.
  intros Hn. unfold decimalString.
  rewrite (decimalDigits_fuel _ 0 n "" (decimalString_fuel n)) by (simpl; lia).
  simpl. now rewrite N.mod_small.
Qed.

Lemma decimalString_step (n : N) :
  (10 <= n)%N ->
  decimalString n = decimalString (n / 10) ++ String (digitChar (n mod 10)) "".
Proof.
  intros Hn. unfold decimalString.
  pose proof (decimalString_fuel n) as Hf.
  destruct (N.to_nat (N.log2 n)) as [|f] eqn:Ef.
  - simpl in Hf. lia.
  - simpl. destruct (N.ltb_spec n 10); [lia|].
    rewrite decimalDigits_acc. f_equal.
    rewrite pow2_succ in Hf. pose proof (pow2_pos f).
    apply decimalDigits_fuel; [|apply decimalString_fuel].
    apply N.Div0.div_lt_upper_bound; lia.
Qed.

Lemma decimalString_nonempty (n : N) : (1 <= String.length (decimalString n))%nat.
Proof.
  destruct (N.lt_ge_cases n 10) as [Hlt | Hge].
  - rewrite decimalString_small by exact Hlt. simpl. lia.
  - rewrite decimalString_step, length_append by exact Hge. simpl. lia.
Qed.

Lemma list_ascii_of_string_append (a b : string) :
  list_ascii_of_string (a ++ b) = (list_ascii_of_string a ++ list_ascii_of_string b)%list.
Proof. induction a as [|ch a IH]; simpl; [reflexivity | now rewrite IH]. Qed.

Lemma codeOf_digitChar (d : N) : (d < 10)%N -> codeOf (digitChar d) = (48 + d)%N.
Proof.
  intros Hd. unfold codeOf, digitChar. apply N_ascii_embedding. lia.
Qed.

(** [decimalString n] consists of decimal digits and denotes [n]. *)
Lemma decimalString_denotes (n : N) :
  forallb isDecimalDigit (list_ascii_of_string (decimalString n)) = true /\
  digitsValue (decimalString n) = n.
Proof.
  induction n as [n IH] using (well_founded_induction N.lt_wf_0).
  assert (Hmod : (n mod 10 < 10)%N) by (apply N.mod_lt; discriminate).
  assert (Hlast : forall d, (d < 10)%N -> isDecimalDigit (digitChar d) = true).
  { intros d Hd. unfold isDecimalDigit. rewrite (codeOf_digitChar d Hd).
    apply andb_true_iff. split; apply N.leb_le; lia. }
  destruct (N.lt_ge_cases n 10) as [Hlt | Hge].
  - rewrite (decimalString_small n Hlt). unfold digitsValue.
    cbn [fold_left list_ascii_of_string forallb].
    rewrite (Hlast n Hlt), (codeOf_digitChar n Hlt). split; [reflexivity | lia].
  - rewrite (decimalString_step n Hge).
    assert (Hdiv : (n / 10 < n)%N) by (apply N.div_lt; lia).
    destruct (IH (n / 10)%N Hdiv) as [IHd IHv].
    unfold digitsValue in *.
    rewrite list_ascii_of_string_append, forallb_app, fold_left_app, IHd, IHv.
    cbn [fold_left list_ascii_of_string forallb].
    rewrite (Hlast _ Hmod), (codeOf_digitChar _ Hmod). split; [reflexivity|].
    rewrite (N.add_comm 48), N.add_sub. symmetry. apply N.div_mod. discriminate.
Qed.

(** Steps 11.b-11.c of [toFixed] with one fraction digit put the point
    before the last digit. *)
Lemma fixedDigits_one (n : N) :
  fixedDigits n 1 = decimalString (n / 10) ++ "." ++ decimalString (n mod 10).
Proof.
  unfold fixedDigits.
  assert (Hmod : (n mod 10 < 10)%N) by (apply N.mod_lt; discriminate).
  rewrite (decimalString_small (n mod 10) Hmod).
  destruct (N.lt_ge_cases n 10) as [Hlt | Hge].
  - rewrite N.div_small, N.mod_small by exact Hlt.
    rewrite (decimalString_small n Hlt). reflexivity.
  - rewrite (decimalString_step n Hge).
    set (a := decimalString (n / 10)).
    pose proof (decimalString_nonempty (n / 10)) as Ha. fold a in Ha.
    rewrite length_append. simpl String.length.
    destruct (Nat.leb_spec (String.length a + 1) 1) as [Hle | _]; [lia|].
    rewrite length_append. simpl String.length.
    replace (String.length a + 1 - 1)%nat with (String.length a) by lia.
    now rewrite substring_append_l, substring_append_r.
Qed.

(** The tenths are a nearest tenth of the magnitude. *)
Lemma tenthsOf_nearest (q : Q) :
  (Qabs (inject_Z (Z.of_N (tenthsOf q)) / 10 - Qabs q) <= 1 # 20)%Q.
Proof.
  unfold tenthsOf. set (y := (Qabs q * 10 + (1 # 2))%Q).
  assert (Hy : (0 <= y)%Q) by (unfold y; pose proof (Qabs_nonneg q); lra).
  assert (Hfl : (0 <= Qfloor y)%Z).
  { change 0%Z with (Qfloor 0). now apply Qfloor_resp_le. }
  rewrite Z2N.id by exact Hfl.
  pose proof (Qfloor_le y) as Hlo. pose proof (Qlt_floor y) as Hhi.
  rewrite inject_Z_plus in Hhi. change (inject_Z 1) with 1%Q in Hhi.
  assert (Ey : (y == Qabs q * 10 + (1 # 2))%Q) by reflexivity.
  unfold Qdiv. change (/ 10)%Q with (1 # 10)%Q.
  set (a := inject_Z (Qfloor y)) in *. set (b := Qabs q) in *.
  clearbody a b y.
  apply Qabs_Qle_condition. split; lra.
Qed.

Lemma toFixed_one_decimal (x : float) :
  fixedNotation x -> toFixed x 1 = oneDecimalPlace (valueOf x).
Proof.
  unfold fixedNotation, valueOf, toQ, toFixed.
  destruct (Prim2SF x) as [s|s| |s m e]; try contradiction.
  - intros _. reflexivity.
  - set (v := (inject_Z (Zpos m) * Qpower 2 e)%Q).
    assert (Hv : (0 < v)%Q).
    { apply Qmult_lt_0_compat; [reflexivity|]. now apply Qpower_0_lt. }
    assert (Habs : (Qabs (if s then - v else v) == v)%Q).
    { destruct s; [rewrite Qabs_opp|]; apply Qabs_pos; lra. }
    intros Hlt. rewrite Habs in Hlt.
    assert (Hbig : Qle_bool (inject_Z (10 ^ 21)) v = false).
    { apply not_true_iff_false. rewrite Qle_bool_iff. lra. }
    rewrite Hbig. unfold oneDecimalPlace, tenthsOf.
    assert (Hfl : Qfloor (Qabs (if s then - v else v) * 10 + (1 # 2))%Q
                  = Qfloor (v * inject_Z (10 ^ Z.of_nat 1) + (1 # 2))%Q).
    { apply Qfloor_comp. rewrite Habs. reflexivity. }
    rewrite Hfl, fixedDigits_one.
    assert (Hs : Qltb (if s then (- v)%Q else v) 0 = s).
    { destruct s; [apply Qltb_lt | apply Qltb_ge]; lra. }
    rewrite Hs. reflexivity.
Qed.

(** C7 as stated fails: a finite BMI of 10^21 or more is written in exponent
    notation, not with one decimal place; the metric calculation reaches such a BMI with height
    1 and weight 1e30, which pass its guard. *)
Lemma large_bmi_not_one_decimal_place :
  textContent
    (updateBmiDisplay 1e21%float {| low := 1%float; high := 2%float |} "kgs" emptyDom)
    bmiNumberEl = "1e+21" /\
  oneDecimalPlace (valueOf 1e21%float) = "1000000000000000000000.0" /\
  textContent
    (updateBmiDisplay 1e21%float {| low := 1%float; high := 2%float |} "kgs" emptyDom)
    bmiNumberEl <> oneDecimalPlace (valueOf 1e21%float) /\
  PrimFloat.ltb 0 (heightCm (metricDom "1" "1e30")) = true /\
  PrimFloat.ltb 0 (weightKg (metricDom "1" "1e30")) = true /\
  shown (calculateMetricBMI (metricDom "1" "1e30")) =
    ["1e+34"; "obese"; "0.0kgs"; "0.0kgs"; "none"; "flex"].
Proof.
  split; [vm_compute; reflexivity|]. split; [vm_compute; reflexivity|].
  split; [intros H; vm_compute in H; discriminate H|].
  split; [reflexivity|]. split; [reflexivity|]. vm_compute. reflexivity.
Qed.

(** C7 (amended): for finite numbers of magnitude below 10^21,
    [updateBmiDisplay] writes the BMI
    with exactly one decimal place, the classification, and the two ends of
    the range with one decimal place followed by the unit; it hides the
    welcome view and shows the results view.  The decimal written is a
    nearest tenth of the number.  With height 170 and weight 70 the metric
    calculation renders "24.2", "a healthy weight", "53.5kgs" and "72.0kgs". *)
Theorem updateBmiDisplay_renders
    (bmi : float) (r : Range float) (unit : string) (d : Dom) :
  fixedNotation bmi -> fixedNotation (low r) -> fixedNotation (high r) ->
  let d' := updateBmiDisplay bmi r unit d in
  textContent d' bmiNumberEl = oneDecimalPlace (valueOf bmi) /\
  textContent d' weightClassificationEl = getWeightClassification bmi /\
  textContent d' idealWeightFromEl = oneDecimalPlace (valueOf (low r)) ++ unit /\
  textContent d' idealWeightToEl = oneDecimalPlace (valueOf (high r)) ++ unit /\
  display d' welcomeContainer = "none" /\
  display d' bmiResultContainer = "flex" /\
  (forall q, (Qabs (inject_Z (Z.of_N (tenthsOf q)) / 10 - Qabs q) <= 1 # 20)%Q) /\
  shown (calculateMetricBMI (metricDom "170" "70")) =
    ["24.2"; "a healthy weight"; "53.5kgs"; "72.0kgs"; "none"; "flex"].
Proof.
  intros Hb Hl Hh. cbv zeta.
  destruct (updateBmiDisplay_spec bmi r unit d)
    as (E1 & E2 & E3 & E4 & E5 & E6 & _).
  rewrite E1, E2, E3, E4, E5, E6.
  rewrite !toFixed_one_decimal by assumption.
  repeat split. apply tenthsOf_nearest.
Qed.

Local Open Scope float_scope.

Lemma updateBmiDisplay_renders_witness :
  fixedNotation 24.221453287197235 /\
  textContent
    (updateBmiDisplay 24.221453287197235
       {| low := 53.464999999999996; high := 71.960999999999984 |} "kgs" emptyDom)
    bmiNumberEl = oneDecimalPlace (valueOf 24.221453287197235) /\
  oneDecimalPlace (valueOf 24.221453287197235) = "24.2".
Proof.
  assert (Hb : fixedNotation 24.221453287197235) by (vm_compute; reflexivity).
  assert (Hl : fixedNotation 53.464999999999996) by (vm_compute; reflexivity).
  assert (Hh : fixedNotation 71.960999999999984) by (vm_compute; reflexivity).
  split; [exact Hb|]. split; [|vm_compute; reflexivity].
  exact (proj1 (updateBmiDisplay_renders 24.221453287197235
                  {| low := 53.464999999999996; high := 71.960999999999984 |}
                  "kgs" emptyDom Hb Hl Hh)).
Defined.

End Formatting.

(** ** Rounding in binary64 *)

(** What one multiplication or division of positive normal numbers loses:
    the result is again normal when the exponents allow it, and it is within
    the relative distance [roundoff] of the exact product or quotient. *)

Module Rounding.

Local Open Scope Z_scope.

(** [digits2_pos] counts binary digits. *)
Lemma digits2_pos_spec (p : positive) :
  2 ^ (Zpos (digits2_pos p) - 1) <= Zpos p < 2 ^ Zpos (digits2_pos p).
Proof.
  induction p as [p IH | p IH |]; cbn [digits2_pos].
  - rewrite Pos2Z.inj_succ.
    replace (Z.succ (Zpos (digits2_pos p)) - 1) with (Z.succ (Zpos (digits2_pos p) - 1)) by lia.
    rewrite !Z.pow_succ_r by lia. lia.
  - rewrite Pos2Z.inj_succ.
    replace (Z.succ (Zpos (digits2_pos p)) - 1) with (Z.succ (Zpos (digits2_pos p) - 1)) by lia.
    rewrite !Z.pow_succ_r by lia. lia.
  - cbn. lia.
Qed.

(** A mantissa with [d] digits: uniqueness of the digit count. *)
Lemma digits2_pos_unique (p : positive) (d : Z) :
  2 ^ (d - 1) <= Zpos p < 2 ^ d -> 0 < d -> Zpos (digits2_pos p) = d.
Proof.
  intros [Hlo Hhi] Hd. pose proof (digits2_pos_spec p) as [Plo Phi].
  assert (H1 : Zpos (digits2_pos p) - 1 < d).
  { apply (Z.pow_lt_mono_r_iff 2); lia. }
  assert (H2 : d - 1 < Zpos (digits2_pos p)).
  { apply (Z.pow_lt_mono_r_iff 2); lia. }
  lia.
Qed.

Lemma pow2_xI (p : positive) : 2 ^ Zpos p~1 = 2 * (2 ^ Zpos p * 2 ^ Zpos p).
Proof.
  replace (Zpos p~1) with (Zpos p + Zpos p + 1) by lia.
  rewrite !Z.pow_add_r by lia. lia.
Qed.

Lemma pow2_xO (p : positive) : 2 ^ Zpos p~0 = 2 ^ Zpos p * 2 ^ Zpos p.
Proof.
  replace (Zpos p~0) with (Zpos p + Zpos p) by lia.
  rewrite !Z.pow_add_r by lia. lia.
Qed.

(** One step of right shift halves a non-negative mantissa. *)
Lemma shr_1_m (mrs : shr_record) :
  0 <= shr_m mrs -> shr_m (shr_1 mrs) = shr_m mrs / 2.
Proof.
  destruct mrs as [m r s]. cbn [shr_m]. intros Hm.
  destruct m as [|[p|p|]|p]; cbn [shr_1 shr_m].
  - reflexivity.
  - apply Z.div_unique with 1; lia.
  - apply Z.div_unique with 0; lia.
  - reflexivity.
  - lia.
Qed.

Lemma shr_iter_m (p : positive) (mrs : shr_record) :
  0 <= shr_m mrs ->
  shr_m (iter_pos shr_1 p mrs) = shr_m mrs / 2 ^ Zpos p.
Proof.
  revert mrs. induction p as [p IH | p IH |]; intros mrs Hm; cbn [iter_pos].
  - assert (H1 : 0 <= shr_m (shr_1 mrs)) by (rewrite shr_1_m by lia; apply Z.div_pos; lia).
    assert (H2 : 0 <= shr_m (iter_pos shr_1 p (shr_1 mrs)))
      by (rewrite IH by lia; apply Z.div_pos; [lia | apply Z.pow_pos_nonneg; lia]).
    rewrite IH, IH, shr_1_m by lia.
    rewrite !Z.div_div by (try apply Z.pow_pos_nonneg; lia).
    f_equal. rewrite pow2_xI. reflexivity.
  - assert (H2 : 0 <= shr_m (iter_pos shr_1 p mrs))
      by (rewrite IH by lia; apply Z.div_pos; [lia | apply Z.pow_pos_nonneg; lia]).
    rewrite IH, IH by lia.
    rewrite !Z.div_div by (try apply Z.pow_pos_nonneg; lia).
    f_equal. rewrite pow2_xO. reflexivity.
  - rewrite shr_1_m by lia. reflexivity.
Qed.

Lemma shr_record_of_loc_m (m : Z) (l : location) : shr_m (shr_record_of_loc m l) = m.
Proof. destruct l as [|[| |]]; reflexivity. Qed.

(** [shr_fexp] divides the mantissa by the power of two that brings its
    exponent up to the format's. *)
Lemma shr_fexp_spec (m e : Z) (l : location) :
  0 <= m ->
  let e' := Z.max e (fexp prec emax (Zdigits2 m + e)) in
  snd (shr_fexp prec emax m e l) = e' /\
  shr_m (fst (shr_fexp prec emax m e l)) = m / 2 ^ (e' - e).
Proof.
  intros Hm e'. unfold shr_fexp, shr.
  destruct (fexp prec emax (Zdigits2 m + e) - e) as [|p|p] eqn:En; cbn [fst snd].
  - assert (e' = e) by (unfold e'; lia).
    rewrite shr_record_of_loc_m. replace (e' - e) with 0 by lia.
    rewrite Z.div_1_r. split; lia.
  - assert (e' = e + Zpos p) by (unfold e'; lia).
    rewrite shr_iter_m by (rewrite shr_record_of_loc_m; lia).
    rewrite shr_record_of_loc_m. replace (e' - e) with (Zpos p) by lia. split; lia.
  - assert (e' = e) by (unfold e'; lia).
    rewrite shr_record_of_loc_m. replace (e' - e) with 0 by lia.
    rewrite Z.div_1_r. split; lia.
Qed.

Lemma round_nearest_even_bounds (m : Z) (l : location) :
  m <= round_nearest_even m l <= m + 1.
Proof. destruct l as [|[| |]]; cbn; try lia. destruct (Z.even m); lia. Qed.

(** The digit count of a positive integer. *)
Lemma Zdigits2_unique (m d : Z) :
  2 ^ (d - 1) <= m < 2 ^ d -> 0 < d -> Zdigits2 m = d.
Proof.
  intros Hm Hd.
  assert (0 < m) by (pose proof (Z.pow_pos_nonneg 2 (d - 1)); lia).
  destruct m as [|p|p]; try lia. cbn [Zdigits2]. now apply digits2_pos_unique.
Qed.

(** Above the subnormal range the format keeps 53 digits. *)
Lemma fexp_normal (x : Z) : -1074 <= x - 53 -> fexp prec emax x = x - 53.
Proof. unfold fexp, SpecFloat.emin, prec, emax. lia. Qed.

(** Rounding a mantissa [mx] of [d >= 53] digits at the exponent [ex], when
    the result is neither subnormal nor too large: the result is normal, its
    exponent is [ex + k] with [k] one of [d - 53] and [d - 52], and its
    mantissa, scaled back by [2^k], is within [2^k] of [mx] and of [mx + 1],
    between which the exact value lies. *)
Lemma binary_round_aux_normal (s : bool) (mx ex : Z) (lx : location) (d : Z) :
  2 ^ (d - 1) <= mx < 2 ^ d -> 53 <= d ->
  -1074 <= d + ex - 53 -> d + ex - 52 <= 971 ->
  exists (m : positive) (k : Z),
    binary_round_aux prec emax s mx ex lx = S754_finite s m (ex + k) /\
    d - 53 <= k <= d - 52 /\
    2 ^ 52 <= Zpos m < 2 ^ 53 /\
    Zpos m * 2 ^ k <= mx + 2 ^ k /\
    mx + 1 <= Zpos m * 2 ^ k + 2 ^ k.
Proof.
  intros Hmx Hd Hlo Hhi.
  assert (Hmx0 : 0 <= mx) by (pose proof (Z.pow_pos_nonneg 2 (d - 1)); lia).
  unfold binary_round_aux.
  pose proof (shr_fexp_spec mx ex lx Hmx0) as S1. cbv zeta in S1.
  destruct (shr_fexp prec emax mx ex lx) as [mrs1 e1]. cbn [fst snd] in S1.
  rewrite (Zdigits2_unique mx d Hmx ltac:(lia)) in S1.
  rewrite fexp_normal in S1 by lia.
  replace (Z.max ex (d + ex - 53)) with (ex + (d - 53)) in S1 by lia.
  destruct S1 as [-> Hm1].
  replace (ex + (d - 53) - ex) with (d - 53) in Hm1 by lia.
  set (k1 := d - 53) in *.
  assert (Hk1 : 0 <= k1) by (unfold k1; lia).
  assert (Hp1 : 0 < 2 ^ k1) by (apply Z.pow_pos_nonneg; lia).
  assert (Hsplit : 2 ^ d = 2 ^ 53 * 2 ^ k1)
    by (rewrite <- Z.pow_add_r by lia; f_equal; unfold k1; lia).
  assert (Hsplit' : 2 ^ (d - 1) = 2 ^ 52 * 2 ^ k1)
    by (rewrite <- Z.pow_add_r by lia; f_equal; unfold k1; lia).
  set (m1 := shr_m mrs1) in *.
  pose proof (Z.div_mod mx (2 ^ k1) ltac:(lia)) as Hdm.
  pose proof (Z.mod_pos_bound mx (2 ^ k1) Hp1) as Hmod.
  rewrite <- Hm1 in Hdm.
  assert (Hm1b : 2 ^ 52 <= m1 < 2 ^ 53) by nia.
  pose proof (round_nearest_even_bounds m1 (loc_of_shr_record mrs1)) as Hr.
  set (m2 := round_nearest_even m1 (loc_of_shr_record mrs1)) in *.
  assert (Hm20 : 0 <= m2) by lia.
  pose proof (shr_fexp_spec m2 (ex + k1) loc_Exact Hm20) as S2. cbv zeta in S2.
  destruct (shr_fexp prec emax m2 (ex + k1) loc_Exact) as [mrs2 e2]. cbn [fst snd] in S2.
  destruct (Z.eq_dec m2 (2 ^ 53)) as [Heq | Hne].
  - (* the rounding carried into a 54th digit *)
    assert (D2 : Zdigits2 m2 = 54)
      by (apply Zdigits2_unique; [rewrite Heq; change (2 ^ (54 - 1)) with (2 ^ 53); split; [lia | reflexivity] | lia]).
    rewrite D2 in S2.
    rewrite fexp_normal in S2 by (unfold k1; lia).
    replace (Z.max (ex + k1) (54 + (ex + k1) - 53)) with (ex + (k1 + 1)) in S2 by lia.
    destruct S2 as [-> Hm3].
    replace (ex + (k1 + 1) - (ex + k1)) with 1 in Hm3 by lia.
    rewrite Heq in Hm3. change (2 ^ 53 / 2 ^ 1) with (2 ^ 52) in Hm3.
    rewrite Hm3. change (2 ^ 52) with (Zpos (2 ^ 52)%positive).
    replace (ex + (k1 + 1) <=? emax - prec) with true
      by (symmetry; apply Z.leb_le; unfold emax, prec, k1; lia).
    exists (2 ^ 52)%positive, (k1 + 1).
    split; [reflexivity|]. split; [unfold k1; lia|].
    split; [split; [reflexivity | reflexivity]|].
    rewrite Z.pow_add_r by lia. change (2 ^ 1) with 2.
    change (Zpos (2 ^ 52)%positive) with (2 ^ 52).
    assert (m1 = 2 ^ 53 - 1) by lia. nia.
  - assert (D2 : Zdigits2 m2 = 53)
      by (apply Zdigits2_unique; [change (2 ^ (53 - 1)) with (2 ^ 52); lia | lia]).
    rewrite D2 in S2.
    rewrite fexp_normal in S2 by (unfold k1; lia).
    replace (Z.max (ex + k1) (53 + (ex + k1) - 53)) with (ex + k1) in S2 by lia.
    destruct S2 as [-> Hm3].
    replace (ex + k1 - (ex + k1)) with 0 in Hm3 by lia.
    rewrite Z.div_1_r in Hm3. rewrite Hm3.
    destruct m2 as [|p2|p2]; try lia.
    replace (ex + k1 <=? emax - prec) with true
      by (symmetry; apply Z.leb_le; unfold emax, prec, k1; lia).
    exists p2, k1.
    split; [reflexivity|]. split; [unfold k1; lia|].
    split; [lia|]. nia.
Qed.

Local Open Scope Q_scope.

(** Values. *)
Lemma finiteValue_pos (m : positive) (e : Z) : 0 < finiteValue m e.
Proof.
  unfold finiteValue. apply Qmult_lt_0_compat.
  - change 0 with (inject_Z 0). rewrite <- Zlt_Qlt. reflexivity.
  - apply Qpower_0_lt. reflexivity.
Qed.

Lemma pow2_split (e k : Z) : (0 <= k)%Z -> 2 ^ (e + k) == inject_Z (2 ^ k) * 2 ^ e.
Proof.
  intros Hk. rewrite Qpower_plus by discriminate.
  rewrite (Zpower_Qpower 2 k Hk). change (inject_Z 2) with 2. ring.
Qed.

(** The bounds of [binary_round_aux_normal], read as a relative error: a
    number [r] between [mx * P] and [(mx + 1) * P] is within [roundoff] of
    the rounded [m3 * 2^k * P]. *)
Lemma round_rel (mx m3 k : Z) (P r : Q) :
  (0 <= k)%Z -> (2 ^ 52 <= m3)%Z ->
  (m3 * 2 ^ k <= mx + 2 ^ k)%Z -> (mx + 1 <= m3 * 2 ^ k + 2 ^ k)%Z ->
  0 < P ->
  inject_Z mx * P <= r -> r <= inject_Z (mx + 1) * P ->
  inject_Z m3 * (inject_Z (2 ^ k) * P) * (1 - roundoff) <= r /\
  r <= inject_Z m3 * (inject_Z (2 ^ k) * P) * (1 + roundoff).
Proof.
  intros Hk Hm3 H1 H2 HP Hlo Hhi.
  rewrite Zle_Qle in Hm3, H1, H2.
  rewrite inject_Z_plus, inject_Z_mult in H1.
  rewrite !inject_Z_plus, inject_Z_mult in H2.
  rewrite inject_Z_plus in Hhi.
  change (inject_Z 1) with 1 in *.
  change (inject_Z (2 ^ 52)) with (4503599627370496 # 1) in Hm3.
  assert (HK : 0 < inject_Z (2 ^ k)).
  { change 0 with (inject_Z 0). rewrite <- Zlt_Qlt. apply Z.pow_pos_nonneg; lia. }
  set (M3 := inject_Z m3) in *. set (K := inject_Z (2 ^ k)) in *.
  set (MX := inject_Z mx) in *.
  clearbody M3 K MX.
  assert (Hu : 0 < K * P) by (apply Qmult_lt_0_compat; assumption).
  assert (A1 : 0 <= (M3 * roundoff - 1) * (K * P)).
  { apply Qmult_le_0_compat; [unfold roundoff; lra | lra]. }
  assert (A2 : (M3 * K - K) * P <= MX * P).
  { apply Qmult_le_compat_r; lra. }
  assert (A3 : (MX + 1) * P <= (M3 * K + K) * P).
  { apply Qmult_le_compat_r; lra. }
  split; lra.
Qed.

Local Open Scope Z_scope.

(** The product of two positive normal numbers. *)
Lemma mul_normal (x y : float) (ma : positive) (ea : Z) (mb : positive) (eb : Z) :
  normal x ma ea -> normal y mb eb ->
  -1126 <= ea + eb <= 917 ->
  exists m e, normal (x * y) m e /\ ea + eb + 52 <= e <= ea + eb + 54 /\
    (finiteValue m e * (1 - roundoff) <= finiteValue ma ea * finiteValue mb eb /\
     finiteValue ma ea * finiteValue mb eb <= finiteValue m e * (1 + roundoff))%Q.
Proof.
  intros [Ex Hx] [Ey Hy] He.
  assert (Hprod : 2 ^ 104 <= Zpos (ma * mb) < 2 ^ 106).
  { rewrite Pos2Z.inj_mul.
    change (2 ^ 104) with (2 ^ 52 * 2 ^ 52). change (2 ^ 106) with (2 ^ 53 * 2 ^ 53).
    nia. }
  assert (Hd : exists d, 105 <= d <= 106 /\ 2 ^ (d - 1) <= Zpos (ma * mb) < 2 ^ d).
  { destruct (Z_lt_le_dec (Zpos (ma * mb)) (2 ^ 105)).
    - exists 105. change (2 ^ (105 - 1)) with (2 ^ 104). lia.
    - exists 106. change (2 ^ (106 - 1)) with (2 ^ 105). lia. }
  destruct Hd as (d & Hd & Hdig).
  destruct (binary_round_aux_normal false (Zpos (ma * mb)) (ea + eb) loc_Exact d
              Hdig ltac:(lia) ltac:(lia) ltac:(lia))
    as (m & k & Hr & Hk & Hm & Hle & Hge).
  exists m, (ea + eb + k).
  split.
  { split; [|exact Hm].
    rewrite mul_spec, Ex, Ey. unfold SF64mul, SFmul. cbn [xorb]. exact Hr. }
  split; [lia|].
  assert (HP : (0 < 2 ^ (ea + eb))%Q) by (apply Qpower_0_lt; reflexivity).
  assert (Hval : (finiteValue ma ea * finiteValue mb eb == inject_Z (Zpos (ma * mb)) * 2 ^ (ea + eb))%Q).
  { unfold finiteValue. rewrite Pos2Z.inj_mul, inject_Z_mult, Qpower_plus by discriminate. ring. }
  destruct (round_rel (Zpos (ma * mb)) (Zpos m) k (2 ^ (ea + eb)) (finiteValue ma ea * finiteValue mb eb))
    as [R1 R2]; try lia; try assumption.
  { rewrite Hval. apply Qle_refl. }
  { rewrite Hval. apply Qmult_le_compat_r; [|apply Qlt_le_weak, HP].
    rewrite <- Zle_Qle. lia. }
  assert (Hv : forall c : Q,
            (finiteValue m (ea + eb + k) * c
             == inject_Z (Zpos m) * (inject_Z (2 ^ k) * 2 ^ (ea + eb)) * c)%Q).
  { intros c. unfold finiteValue at 1. rewrite (pow2_split (ea + eb) k) by lia. ring. }
  rewrite !Hv. split; assumption.
Qed.

(** The quotient of two positive normal numbers; the error bound is stated
    after multiplying by the divisor. *)
Lemma div_normal (x y : float) (ma : positive) (ea : Z) (mb : positive) (eb : Z) :
  normal x ma ea -> normal y mb eb ->
  -1021 <= ea - eb <= 1022 ->
  exists m e, normal (x / y) m e /\ ea - eb - 53 <= e <= ea - eb - 51 /\
    (finiteValue m e * (1 - roundoff) * finiteValue mb eb <= finiteValue ma ea /\
     finiteValue ma ea <= finiteValue m e * (1 + roundoff) * finiteValue mb eb)%Q.
Proof.
  intros [Ex Hx] [Ey Hy] He.
  assert (Hcore : exists q l,
            SFdiv_core_binary prec emax (Zpos ma) ea (Zpos mb) eb = (q, ea - eb - 53, l) /\
            q * Zpos mb <= Zpos ma * 2 ^ 53 < (q + 1) * Zpos mb).
  { unfold SFdiv_core_binary.
    rewrite (Zdigits2_unique (Zpos ma) 53), (Zdigits2_unique (Zpos mb) 53)
      by (change (2 ^ (53 - 1)) with (2 ^ 52); lia).
    replace (53 + ea - (53 + eb)) with (ea - eb) by lia.
    rewrite fexp_normal by lia.
    replace (IntDef.Z.min (ea - eb - 53) (ea - eb)) with (ea - eb - 53)
      by (change IntDef.Z.min with Z.min; lia).
    replace (ea - eb - (ea - eb - 53)) with 53 by lia.
    cbv zeta. cbv iota.
    change IntDef.Z.shiftl with Z.shiftl. change IntDef.Z.div_eucl with Z.div_eucl.
    rewrite Z.shiftl_mul_pow2 by lia.
    pose proof (Z_div_mod (Zpos ma * 2 ^ 53) (Zpos mb) ltac:(lia)) as Hdm.
    destruct (Z.div_eucl (Zpos ma * 2 ^ 53) (Zpos mb)) as [q r].
    exists q, (new_location (Zpos mb) r).
    split; [reflexivity | lia]. }
  destruct Hcore as (q & l & Hcore & Hq).
  assert (Hqb : 2 ^ 52 <= q < 2 ^ 54).
  { change (2 ^ 54) with (2 * 2 ^ 53). change (2 ^ 53) with (2 * 2 ^ 52) in *. nia. }
  assert (Hd : exists d, 53 <= d <= 54 /\ 2 ^ (d - 1) <= q < 2 ^ d).
  { destruct (Z_lt_le_dec q (2 ^ 53)).
    - exists 53. change (2 ^ (53 - 1)) with (2 ^ 52). lia.
    - exists 54. change (2 ^ (54 - 1)) with (2 ^ 53). lia. }
  destruct Hd as (d & Hd & Hdig).
  destruct (binary_round_aux_normal false q (ea - eb - 53) l d
              Hdig ltac:(lia) ltac:(lia) ltac:(lia))
    as (m & k & Hr & Hk & Hm & Hle & Hge).
  exists m, (ea - eb - 53 + k).
  split.
  { split; [|exact Hm].
    rewrite div_spec, Ex, Ey. unfold SF64div, SFdiv. rewrite Hcore. cbn [xorb]. exact Hr. }
  split; [lia|].
  pose proof (finiteValue_pos mb eb) as HY.
  assert (HP : (0 < 2 ^ (ea - eb - 53) * finiteValue mb eb)%Q).
  { apply Qmult_lt_0_compat; [apply Qpower_0_lt; reflexivity | exact HY]. }
  assert (Hscale : forall n : Z,
            (inject_Z n * (2 ^ (ea - eb - 53) * finiteValue mb eb)
             == inject_Z (n * Zpos mb) * 2 ^ (ea - 53))%Q).
  { intros n. unfold finiteValue. rewrite inject_Z_mult.
    replace (ea - 53) with (ea - eb - 53 + eb) by lia.
    rewrite (Qpower_plus 2 (ea - eb - 53) eb) by discriminate. ring. }
  assert (Hval : (finiteValue ma ea == inject_Z (Zpos ma * 2 ^ 53) * 2 ^ (ea - 53))%Q).
  { unfold finiteValue. rewrite inject_Z_mult.
    replace ea with (ea - 53 + 53) at 1 by lia.
    rewrite (Qpower_plus 2 (ea - 53) 53) by discriminate.
    rewrite (Zpower_Qpower 2 53) by lia. change (inject_Z 2) with 2%Q. ring. }
  assert (HP2 : (0 < 2 ^ (ea - 53))%Q) by (apply Qpower_0_lt; reflexivity).
  destruct (round_rel q (Zpos m) k (2 ^ (ea - eb - 53) * finiteValue mb eb) (finiteValue ma ea))
    as [R1 R2]; try lia; try assumption.
  { rewrite Hscale, Hval. apply Qmult_le_compat_r; [|apply Qlt_le_weak, HP2].
    rewrite <- Zle_Qle. lia. }
  { rewrite Hscale, Hval. apply Qmult_le_compat_r; [|apply Qlt_le_weak, HP2].
    rewrite <- Zle_Qle. lia. }
  assert (Hv : forall c : Q,
            (finiteValue m (ea - eb - 53 + k) * c * finiteValue mb eb
             == inject_Z (Zpos m) * (inject_Z (2 ^ k) * (2 ^ (ea - eb - 53) * finiteValue mb eb)) * c)%Q).
  { intros c. unfold finiteValue at 1. rewrite (pow2_split (ea - eb - 53) k) by lia. ring. }
  rewrite !Hv. split; assumption.
Qed.

Local Open Scope Q_scope.

(** The same, with the exponents in a range and the values by [valueOf]. *)
Lemma valueOf_normal (x : float) (m : positive) (e : Z) :
  normal x m e -> valueOf x = finiteValue m e /\ Binary64.toQ x = Some (finiteValue m e).
Proof.
  intros [E _]. unfold valueOf, Binary64.toQ. rewrite E. split; reflexivity.
Qed.

Lemma normalBetween_pos (x : float) (lo hi : Z) : normalBetween x lo hi -> 0 < valueOf x.
Proof.
  intros (m & e & Hn & _). destruct (valueOf_normal x m e Hn) as [-> _]. apply finiteValue_pos.
Qed.

Lemma normalBetween_finite (x : float) (lo hi : Z) :
  normalBetween x lo hi -> Binary64.toQ x = Some (valueOf x).
Proof.
  intros (m & e & Hn & _). destruct (valueOf_normal x m e Hn) as [-> ->]. reflexivity.
Qed.

Lemma mul_normalBetween (x y : float) (a1 a2 b1 b2 : Z) :
  normalBetween x a1 a2 -> normalBetween y b1 b2 ->
  (-1126 <= a1 + b1)%Z -> (a2 + b2 <= 917)%Z ->
  normalBetween (x * y) (a1 + b1 + 52) (a2 + b2 + 54) /\
  valueOf (x * y) * (1 - roundoff) <= valueOf x * valueOf y /\
  valueOf x * valueOf y <= valueOf (x * y) * (1 + roundoff).
Proof.
  intros (ma & ea & Hx & Hea) (mb & eb & Hy & Heb) Hlo Hhi.
  destruct (mul_normal x y ma ea mb eb Hx Hy ltac:(lia)) as (m & e & Hn & He & Hle & Hge).
  destruct (valueOf_normal _ _ _ Hx) as [-> _].
  destruct (valueOf_normal _ _ _ Hy) as [-> _].
  destruct (valueOf_normal _ _ _ Hn) as [-> _].
  split; [exists m, e; split; [exact Hn | lia] | split; assumption].
Qed.

Lemma div_normalBetween (x y : float) (a1 a2 b1 b2 : Z) :
  normalBetween x a1 a2 -> normalBetween y b1 b2 ->
  (-1021 <= a1 - b2)%Z -> (a2 - b1 <= 1022)%Z ->
  normalBetween (x / y) (a1 - b2 - 53) (a2 - b1 - 51) /\
  valueOf (x / y) * (1 - roundoff) * valueOf y <= valueOf x /\
  valueOf x <= valueOf (x / y) * (1 + roundoff) * valueOf y.
Proof.
  intros (ma & ea & Hx & Hea) (mb & eb & Hy & Heb) Hlo Hhi.
  destruct (div_normal x y ma ea mb eb Hx Hy ltac:(lia)) as (m & e & Hn & He & Hle & Hge).
  destruct (valueOf_normal _ _ _ Hx) as [-> _].
  destruct (valueOf_normal _ _ _ Hy) as [-> _].
  destruct (valueOf_normal _ _ _ Hn) as [-> _].
  split; [exists m, e; split; [exact Hn | lia] | split; assumption].
Qed.

Lemma normalBetween_weaken (x : float) (lo hi lo' hi' : Z) :
  normalBetween x lo hi -> (lo' <= lo)%Z -> (hi <= hi')%Z -> normalBetween x lo' hi'.
Proof. intros (m & e & Hn & He) Hl Hh. exists m, e. split; [exact Hn | lia]. Qed.

(** A number between two positive normal numbers is one. *)
Lemma between_normalBetween (lo hi x : float) (mlo : positive) (elo : Z) (mhi : positive) (ehi : Z) :
  Prim2SF lo = S754_finite false mlo elo ->
  Prim2SF hi = S754_finite false mhi ehi ->
  (-1074 < elo)%Z ->
  (lo <=? x)%float = true -> (x <=? hi)%float = true ->
  normalBetween x elo ehi.
Proof.
  intros Elo Ehi Hn Hle Hge.
  rewrite leb_spec, Elo in Hle. rewrite leb_spec, Ehi in Hge.
  pose proof (Prim2SF_valid x) as Hv.
  destruct (Prim2SF x) as [s|s| |s m e] eqn:Ex;
    try (destruct s; discriminate); try discriminate.
  destruct s; [discriminate|].
  unfold SFleb, SFcompare in Hle, Hge.
  assert (He : (elo <= e <= ehi)%Z).
  { split.
    - destruct (Z.compare_spec elo e); try lia; discriminate.
    - destruct (Z.compare_spec e ehi); try lia; discriminate. }
  exists m, e. split; [|exact He]. split; [exact Ex|].
  unfold SpecFloat.valid_binary, bounded, canonical_mantissa in Hv.
  apply andb_prop in Hv. destruct Hv as [Hc _].
  apply Z.eqb_eq in Hc.
  unfold fexp, SpecFloat.emin, prec, emax in Hc.
  pose proof (digits2_pos_spec m) as Hd.
  assert (Hd53 : Zpos (digits2_pos m) = 53%Z) by lia.
  rewrite Hd53 in Hd. change (2 ^ (53 - 1))%Z with (2 ^ 52)%Z in Hd. exact Hd.
Qed.

(** Comparing two positive normal numbers compares their values. *)
Lemma finiteValue_lt_exponent (m1 : positive) (e1 : Z) (m2 : positive) (e2 : Z) :
  (Zpos m1 < 2 ^ 53)%Z -> (2 ^ 52 <= Zpos m2)%Z -> (e1 < e2)%Z -> finiteValue m1 e1 < finiteValue m2 e2.
Proof.
  intros H1 H2 He. unfold finiteValue.
  rewrite Zlt_Qlt in H1. rewrite Zle_Qle in H2.
  change (inject_Z (2 ^ 53)) with (9007199254740992 # 1) in H1.
  change (inject_Z (2 ^ 52)) with (4503599627370496 # 1) in H2.
  assert (Hp : 2 * 2 ^ e1 <= 2 ^ e2).
  { assert (E : 2 * 2 ^ e1 == 2 ^ (e1 + 1)) by (rewrite Qpower_plus by discriminate; change (2 ^ 1) with 2; ring).
    rewrite E. apply Qpower_le_compat_l; [lia | discriminate]. }
  assert (P1 : 0 < 2 ^ e1) by (apply Qpower_0_lt; reflexivity).
  assert (P2 : 0 < 2 ^ e2) by (apply Qpower_0_lt; reflexivity).
  set (M1 := inject_Z (Zpos m1)) in *. set (M2 := inject_Z (Zpos m2)) in *.
  set (p1 := 2 ^ e1) in *. set (p2 := 2 ^ e2) in *. clearbody M1 M2 p1 p2.
  assert (A1 : M1 * p1 < (9007199254740992 # 1) * p1)
    by (apply Qmult_lt_compat_r; assumption).
  assert (A2 : (4503599627370496 # 1) * p2 <= M2 * p2)
    by (apply Qmult_le_compat_r; [assumption | lra]).
  lra.
Qed.

Lemma ltb_normal (x y : float) (a1 a2 b1 b2 : Z) :
  normalBetween x a1 a2 -> normalBetween y b1 b2 ->
  ((x <? y)%float = true <-> valueOf x < valueOf y).
Proof.
  intros (ma & ea & Hx & _) (mb & eb & Hy & _).
  destruct (valueOf_normal _ _ _ Hx) as [-> _].
  destruct (valueOf_normal _ _ _ Hy) as [-> _].
  destruct Hx as [Ex Hx], Hy as [Ey Hy].
  rewrite ltb_spec, Ex, Ey. unfold SFltb, SFcompare.
  destruct (Z.compare_spec ea eb) as [-> | Hlt | Hgt].
  - change (PosDef.Pos.compare_cont Eq ma mb) with (Pos.compare ma mb).
    assert (P : 0 < 2 ^ eb) by (apply Qpower_0_lt; reflexivity).
    unfold finiteValue. rewrite Qmult_lt_r by exact P. rewrite <- Zlt_Qlt.
    destruct (Pos.compare_spec ma mb); split; intros; try reflexivity; try discriminate; lia.
  - split; [intros _ | reflexivity]. apply finiteValue_lt_exponent; lia.
  - split; [discriminate|]. intros Hc. exfalso.
    assert (finiteValue mb eb < finiteValue ma ea) by (apply finiteValue_lt_exponent; lia). lra.
Qed.

End Rounding.

(** ** The healthy range and the thresholds, in binary64 *)

Section HealthyRangeRounding.

Import Rounding Binary64 Builtins.
Local Open Scope string_scope.

(** Plausible numbers and the literals of the script are positive normal
    numbers. *)
Lemma normalBetween_exact (x : float) (lo hi : Z) :
  normalBetween x lo hi -> exists e, (lo <= e <= hi)%Z /\ normalBetween x e e.
Proof.
  intros (m & e & Hn & He). exists e. split; [exact He|].
  exists m, e. split; [exact Hn | lia].
Qed.

Lemma plausible_normalBetween (x : float) : plausible x -> normalBetween x (-385) 280.
Proof.
  intros [Hlo Hhi].
  apply (between_normalBetween 1e-100 1e100 x 7880401239278896 (-385) 5147557589468029 280);
    [reflexivity | reflexivity | lia | exact Hlo | exact Hhi].
Qed.

Lemma normalBetween_literal (x : float) (m : positive) (e : Z) :
  Prim2SF x = S754_finite false m e ->
  (Z.leb (2 ^ 52) (Zpos m) && Z.ltb (Zpos m) (2 ^ 53))%bool = true ->
  normalBetween x e e.
Proof.
  intros E Hb. apply andb_prop in Hb. destruct Hb as [H1 H2].
  apply Z.leb_le in H1. apply Z.ltb_lt in H2.
  exists m, e. split; [split; [exact E | split; assumption] | lia].
Qed.

Lemma normalBetween_18_5 : normalBetween 18.5 (-48) (-48).
Proof. apply (normalBetween_literal _ 5207287069147136); reflexivity. Qed.

Lemma normalBetween_24_9 : normalBetween 24.9 (-48) (-48).
Proof. apply (normalBetween_literal _ 7008726920095334); reflexivity. Qed.

Lemma normalBetween_100 : normalBetween 100 (-46) (-46).
Proof. apply (normalBetween_literal _ 7036874417766400); reflexivity. Qed.

Lemma normalBetween_703 : normalBetween 703 (-43) (-43).
Proof. apply (normalBetween_literal _ 6183653394612224); reflexivity. Qed.

Local Open Scope Q_scope.

(** The values of the literals: 18.5 and 703 are exact, 24.9 is not. *)
Lemma valueOf_18_5 : valueOf 18.5 == 37 # 2.
Proof. reflexivity. Qed.

Lemma valueOf_24_9 : 2489 # 100 <= valueOf 24.9 /\ valueOf 24.9 <= 2491 # 100.
Proof. split; apply Qle_bool_iff; reflexivity. Qed.

Lemma valueOf_703 : valueOf 703 == 703 # 1.
Proof. reflexivity. Qed.

(** Cancelling a positive factor. *)
Lemma Qle_cancel_r (x y z : Q) : 0 < z -> x * z <= y * z -> x <= y.
Proof. intros Hz H. exact (proj1 (Qmult_le_r x y z Hz) H). Qed.

Lemma Qlt_cancel_r (x y z : Q) : 0 < z -> x * z < y * z -> x < y.
Proof. intros Hz H. exact (proj1 (Qmult_lt_r x y z Hz) H). Qed.

(** Two roundings away from [c]: the metric path. *)
Lemma metric_end (c s : float) (es : Z) :
  normalBetween c (-48) (-48) -> normalBetween s es es -> (-732 <= es <= 604)%Z ->
  normalBetween (c * s) (es + 4) (es + 6) /\
  normalBetween (c * s / s) (-49) (-45) /\
  (valueOf (c * s) * (1 - roundoff) <= valueOf c * valueOf s /\
   valueOf c * valueOf s <= valueOf (c * s) * (1 + roundoff)) /\
  (valueOf c * (1 - tolerance) <= valueOf (c * s / s) /\
   valueOf (c * s / s) <= valueOf c * (1 + tolerance)).
Proof.
  intros Hc Hs Hes.
  destruct (mul_normalBetween c s (-48) (-48) es es Hc Hs ltac:(lia) ltac:(lia))
    as (NL & L1 & L2).
  apply (normalBetween_weaken _ _ _ (es + 4)%Z (es + 6)%Z) in NL; [|lia|lia].
  destruct (div_normalBetween (c * s) s (es + 4) (es + 6) es es NL Hs ltac:(lia) ltac:(lia))
    as (NB & B1 & B2).
  apply (normalBetween_weaken _ _ _ (-49)%Z (-45)%Z) in NB; [|lia|lia].
  split; [exact NL|]. split; [exact NB|]. split; [split; assumption|].
  pose proof (normalBetween_pos _ _ _ Hs) as PS.
  pose proof (normalBetween_pos _ _ _ Hc) as PC.
  pose proof (normalBetween_pos _ _ _ NB) as PB.
  set (C := valueOf c) in *. set (S := valueOf s) in *.
  set (W := valueOf (c * s)) in *. set (B := valueOf (c * s / s)) in *.
  clearbody C S W B. unfold roundoff in *.
  assert (G1 : C <= B * ((1 + (1 # 4503599627370496)) * (1 + (1 # 4503599627370496)))).
  { apply (Qle_cancel_r _ _ S PS). lra. }
  assert (G2 : B * ((1 - (1 # 4503599627370496)) * (1 - (1 # 4503599627370496))) <= C).
  { apply (Qle_cancel_r _ _ S PS). lra. }
  unfold tolerance. split; lra.
Qed.

(** Four roundings away from [c]: the imperial path. *)
Lemma imperial_end (c s : float) (es : Z) :
  normalBetween c (-48) (-48) -> normalBetween s es es -> (-718 <= es <= 614)%Z ->
  normalBetween (c * s / 703) (es - 6) (es - 2) /\
  normalBetween (c * s / 703 / s * 703) (-50) (-42) /\
  (valueOf (c * s / 703) * (703 # 1)
     * ((1 - roundoff) * (1 - roundoff)) <= valueOf c * valueOf s /\
   valueOf c * valueOf s <= valueOf (c * s / 703) * (703 # 1)
     * ((1 + roundoff) * (1 + roundoff))) /\
  (valueOf c * (1 - tolerance) <= valueOf (c * s / 703 / s * 703) /\
   valueOf (c * s / 703 / s * 703) <= valueOf c * (1 + tolerance)).
Proof.
  intros Hc Hs Hes.
  destruct (mul_normalBetween c s (-48) (-48) es es Hc Hs ltac:(lia) ltac:(lia))
    as (N1 & M1 & M2).
  apply (normalBetween_weaken _ _ _ (es + 4)%Z (es + 6)%Z) in N1; [|lia|lia].
  destruct (div_normalBetween (c * s) 703 (es + 4) (es + 6) (-43) (-43) N1 normalBetween_703
              ltac:(lia) ltac:(lia)) as (NL & L1 & L2).
  apply (normalBetween_weaken _ _ _ (es - 6)%Z (es - 2)%Z) in NL; [|lia|lia].
  destruct (div_normalBetween (c * s / 703) s (es - 6) (es - 2) es es NL Hs
              ltac:(lia) ltac:(lia)) as (NQ & Q1 & Q2).
  apply (normalBetween_weaken _ _ _ (-59)%Z (-53)%Z) in NQ; [|lia|lia].
  destruct (mul_normalBetween (c * s / 703 / s) 703 (-59) (-53) (-43) (-43) NQ normalBetween_703
              ltac:(lia) ltac:(lia)) as (NB & B1 & B2).
  apply (normalBetween_weaken _ _ _ (-50)%Z (-42)%Z) in NB; [|lia|lia].
  split; [exact NL|]. split; [exact NB|].
  pose proof (normalBetween_pos _ _ _ Hs) as PS.
  pose proof (normalBetween_pos _ _ _ Hc) as PC.
  pose proof (normalBetween_pos _ _ _ NB) as PB.
  pose proof (normalBetween_pos _ _ _ NL) as PL.
  pose proof (normalBetween_pos _ _ _ NQ) as PQ.
  rewrite valueOf_703 in L1, L2, B1, B2.
  set (C := valueOf c) in *. set (S := valueOf s) in *.
  set (W := valueOf (c * s)) in *. set (L := valueOf (c * s / 703)) in *.
  set (T := valueOf (c * s / 703 / s)) in *.
  set (B := valueOf (c * s / 703 / s * 703)) in *.
  clearbody C S W L T B. unfold roundoff in *.
  split; [split; lra|].
  assert (A1 : B * (1 - (1 # 4503599627370496)) * S <= T * (703 # 1) * S)
    by (apply Qmult_le_compat_r; lra).
  assert (A2 : T * (703 # 1) * S <= B * (1 + (1 # 4503599627370496)) * S)
    by (apply Qmult_le_compat_r; lra).
  assert (G1 : C <= B * ((1 + (1 # 4503599627370496)) * (1 + (1 # 4503599627370496))
                         * ((1 + (1 # 4503599627370496)) * (1 + (1 # 4503599627370496))))).
  { apply (Qle_cancel_r _ _ S PS). lra. }
  assert (G2 : B * ((1 - (1 # 4503599627370496)) * (1 - (1 # 4503599627370496))
                    * ((1 - (1 # 4503599627370496)) * (1 - (1 # 4503599627370496)))) <= C).
  { apply (Qle_cancel_r _ _ S PS). lra. }
  unfold tolerance. split; lra.
Qed.

(** What [toFixed(1)] writes for a positive number of known tenths. *)
Lemma Qfloor_unique (y : Q) (n : Z) :
  inject_Z n <= y -> y < inject_Z (n + 1) -> Qfloor y = n.
Proof.
  intros Hlo Hhi.
  pose proof (Qfloor_le y) as F1. pose proof (Qlt_floor y) as F2.
  assert (H1 : (Qfloor y < n + 1)%Z) by (rewrite Zlt_Qlt; lra).
  assert (H2 : (n < Qfloor y + 1)%Z) by (rewrite Zlt_Qlt; lra).
  lia.
Qed.

Lemma toFixed_tenths (x : float) (lo hi : Z) (n : Z) :
  normalBetween x lo hi ->
  inject_Z n <= valueOf x * 10 + (1 # 2) -> valueOf x * 10 + (1 # 2) < inject_Z (n + 1) ->
  (n < 10 ^ 21)%Z ->
  toFixed x 1 = decimalString (Z.to_N n / 10) ++ "." ++ decimalString (Z.to_N n mod 10).
Proof.
  intros Hn Hlo Hhi Hsmall.
  pose proof (normalBetween_pos _ _ _ Hn) as Hpos.
  assert (Habs : Qabs (valueOf x) == valueOf x) by (apply Qabs_pos; lra).
  rewrite toFixed_one_decimal.
  - unfold oneDecimalPlace, tenthsOf.
    assert (Hs : Qltb (valueOf x) 0 = false) by (apply Qltb_ge; lra).
    rewrite Hs.
    assert (Hfl : Qfloor (Qabs (valueOf x) * 10 + (1 # 2)) = n).
    { apply Qfloor_unique; rewrite Habs; assumption. }
    rewrite Hfl. reflexivity.
  - unfold fixedNotation. rewrite (normalBetween_finite _ _ _ Hn), Habs.
    rewrite Zlt_Qlt in Hsmall. rewrite inject_Z_plus in Hhi.
    change (inject_Z 1) with 1 in Hhi.
    set (a := inject_Z n) in *. set (b := inject_Z (10 ^ 21)) in *.
    assert (Hb : 1 <= b) by (apply Qle_bool_iff; reflexivity).
    clearbody a b. lra.
Qed.

Lemma near_intro (x c : float) (a1 a2 b1 b2 : Z) :
  normalBetween x a1 a2 -> normalBetween c b1 b2 ->
  valueOf c * (1 - tolerance) <= valueOf x -> valueOf x <= valueOf c * (1 + tolerance) ->
  near x c.
Proof.
  intros Hx Hc Hlo Hhi. unfold near.
  rewrite (normalBetween_finite _ _ _ Hx), (normalBetween_finite _ _ _ Hc). split; assumption.
Qed.

Lemma displays_18_5 (x : float) (lo hi : Z) :
  normalBetween x lo hi ->
  valueOf 18.5 * (1 - tolerance) <= valueOf x -> valueOf x <= valueOf 18.5 * (1 + tolerance) ->
  toFixed x 1 = "18.5".
Proof.
  intros Hn Hlo Hhi. rewrite valueOf_18_5 in Hlo, Hhi. unfold tolerance in *.
  rewrite (toFixed_tenths x lo hi 185 Hn); [reflexivity | | | reflexivity].
  - change (inject_Z 185) with (185 # 1). lra.
  - change (inject_Z (185 + 1)) with (186 # 1). lra.
Qed.

Lemma displays_24_9 (x : float) (lo hi : Z) :
  normalBetween x lo hi ->
  valueOf 24.9 * (1 - tolerance) <= valueOf x -> valueOf x <= valueOf 24.9 * (1 + tolerance) ->
  toFixed x 1 = "24.9".
Proof.
  intros Hn Hlo Hhi. destruct valueOf_24_9 as [C1 C2]. unfold tolerance in *.
  rewrite (toFixed_tenths x lo hi 249 Hn); [reflexivity | | | reflexivity].
  - change (inject_Z 249) with (249 # 1). lra.
  - change (inject_Z (249 + 1)) with (250 # 1). lra.
Qed.

(** The classification of a positive normal BMI, by its value. *)
Lemma healthy_iff (b : float) (lo hi : Z) :
  normalBetween b lo hi ->
  (getWeightClassification b = "a healthy weight" <->
   valueOf 18.5 <= valueOf b /\ valueOf b < valueOf 24.9).
Proof.
  intros Hb.
  pose proof (ltb_normal b 18.5 _ _ _ _ Hb normalBetween_18_5) as H1.
  pose proof (ltb_normal b 24.9 _ _ _ _ Hb normalBetween_24_9) as H2.
  rewrite getWeightClassification_float.
  destruct (b <? 18.5)%float.
  - split; [discriminate|]. intros [Ha _]. exfalso.
    assert (valueOf b < valueOf 18.5) by (apply H1; reflexivity). lra.
  - destruct (b <? 24.9)%float.
    + split; [intros _ | reflexivity]. split.
      * apply Qnot_lt_le. intros Hlt. apply H1 in Hlt. discriminate.
      * apply H2. reflexivity.
    + split.
      * destruct (b <? 29.9)%float; discriminate.
      * intros [_ Hc]. apply H2 in Hc. discriminate.
Qed.

(** The metric range and the weights classified as healthy. *)
Lemma metric_interval (s w : float) (es : Z) :
  normalBetween s es es -> (-732 <= es <= 604)%Z -> normalBetween w (-385) 280 ->
  (getWeightClassification (w / s)%float = "a healthy weight" ->
   valueOf (18.5 * s) * (1 - tolerance) <= valueOf w /\
   valueOf w < valueOf (24.9 * s) * (1 + tolerance)) /\
  (valueOf (18.5 * s) * (1 + tolerance) <= valueOf w /\
   valueOf w < valueOf (24.9 * s) * (1 - tolerance) ->
   getWeightClassification (w / s)%float = "a healthy weight").
Proof.
  intros Hs Hes Hw.
  destruct (div_normalBetween w s (-385) 280 es es Hw Hs ltac:(lia) ltac:(lia))
    as (NB & D1 & D2).
  destruct (metric_end 18.5 s es normalBetween_18_5 Hs Hes) as (NL & _ & [L1 L2] & _).
  destruct (metric_end 24.9 s es normalBetween_24_9 Hs Hes) as (NH & _ & [H1 H2] & _).
  rewrite (healthy_iff _ _ _ NB).
  pose proof (normalBetween_pos _ _ _ Hs) as PS.
  pose proof (normalBetween_pos _ _ _ NB) as PB.
  pose proof (normalBetween_pos _ _ _ NL) as PL.
  pose proof (normalBetween_pos _ _ _ NH) as PH.
  pose proof (normalBetween_pos _ _ _ normalBetween_18_5) as P1.
  pose proof (normalBetween_pos _ _ _ normalBetween_24_9) as P2.
  set (S := valueOf s) in *. set (W := valueOf w) in *.
  set (B := valueOf (w / s)) in *.
  set (L := valueOf (18.5 * s)) in *. set (H := valueOf (24.9 * s)) in *.
  set (C1 := valueOf 18.5) in *. set (C2 := valueOf 24.9) in *.
  clearbody S W B L H C1 C2. unfold roundoff, tolerance in *.
  assert (PBS : 0 < B * S) by (apply Qmult_lt_0_compat; assumption).
  assert (PCS : 0 < C2 * S) by (apply Qmult_lt_0_compat; assumption).
  split.
  - intros [Ha Hb].
    assert (A1 : C1 * S <= B * S) by (apply Qmult_le_compat_r; lra).
    assert (A2 : B * S < C2 * S) by (apply Qmult_lt_compat_r; lra).
    split; lra.
  - intros [Ha Hb]. split.
    + apply (Qle_cancel_r _ _ S PS). lra.
    + apply (Qlt_cancel_r _ _ S PS). lra.
Qed.

(** The imperial range and the weights classified as healthy. *)
Lemma imperial_interval (s w : float) (es : Z) :
  normalBetween s es es -> (-718 <= es <= 614)%Z -> normalBetween w (-385) 280 ->
  (getWeightClassification (w / s * 703)%float = "a healthy weight" ->
   valueOf (18.5 * s / 703) * (1 - tolerance) <= valueOf w /\
   valueOf w < valueOf (24.9 * s / 703) * (1 + tolerance)) /\
  (valueOf (18.5 * s / 703) * (1 + tolerance) <= valueOf w /\
   valueOf w < valueOf (24.9 * s / 703) * (1 - tolerance) ->
   getWeightClassification (w / s * 703)%float = "a healthy weight").
Proof.
  intros Hs Hes Hw.
  destruct (div_normalBetween w s (-385) 280 es es Hw Hs ltac:(lia) ltac:(lia))
    as (NT & D1 & D2).
  destruct (mul_normalBetween (w / s) 703 _ _ (-43) (-43) NT normalBetween_703
              ltac:(lia) ltac:(lia)) as (NB & E1 & E2).
  destruct (imperial_end 18.5 s es normalBetween_18_5 Hs Hes) as (NL & _ & [L1 L2] & _).
  destruct (imperial_end 24.9 s es normalBetween_24_9 Hs Hes) as (NH & _ & [H1 H2] & _).
  rewrite (healthy_iff _ _ _ NB).
  pose proof (normalBetween_pos _ _ _ Hs) as PS.
  pose proof (normalBetween_pos _ _ _ NB) as PB.
  pose proof (normalBetween_pos _ _ _ NT) as PT.
  pose proof (normalBetween_pos _ _ _ NL) as PL.
  pose proof (normalBetween_pos _ _ _ NH) as PH.
  pose proof (normalBetween_pos _ _ _ normalBetween_18_5) as P1.
  pose proof (normalBetween_pos _ _ _ normalBetween_24_9) as P2.
  rewrite valueOf_703 in E1, E2.
  set (S := valueOf s) in *. set (W := valueOf w) in *.
  set (T := valueOf (w / s)) in *. set (B := valueOf (w / s * 703)) in *.
  set (L := valueOf (18.5 * s / 703)) in *. set (H := valueOf (24.9 * s / 703)) in *.
  set (C1 := valueOf 18.5) in *. set (C2 := valueOf 24.9) in *.
  clearbody S W T B L H C1 C2. unfold roundoff, tolerance in *.
  assert (PBS : 0 < B * S) by (apply Qmult_lt_0_compat; assumption).
  assert (PCS : 0 < C2 * S) by (apply Qmult_lt_0_compat; assumption).
  assert (PC1S : 0 < C1 * S) by (apply Qmult_lt_0_compat; assumption).
  assert (A3 : B * (1 - (1 # 4503599627370496)) * S <= T * (703 # 1) * S)
    by (apply Qmult_le_compat_r; lra).
  assert (A4 : T * (703 # 1) * S <= B * (1 + (1 # 4503599627370496)) * S)
    by (apply Qmult_le_compat_r; lra).
  split.
  - intros [Ha Hb].
    assert (A1 : C1 * S <= B * S) by (apply Qmult_le_compat_r; lra).
    assert (A2 : B * S < C2 * S) by (apply Qmult_lt_compat_r; lra).
    split; lra.
  - intros [Ha Hb]. split.
    + apply (Qle_cancel_r _ _ S PS). lra.
    + apply (Qlt_cancel_r _ _ S PS). lra.
Qed.

(** The squared height, as each mode computes it, is a positive normal
    number far from overflow and underflow. *)
Lemma metric_square (height : float) :
  plausible height ->
  exists es, (-732 <= es <= 604)%Z /\
    normalBetween (height / 100 * (height / 100)) es es.
Proof.
  intros Hp. apply plausible_normalBetween in Hp.
  destruct (div_normalBetween height 100 _ _ _ _ Hp normalBetween_100 ltac:(lia) ltac:(lia))
    as (NM & _).
  destruct (mul_normalBetween _ _ _ _ _ _ NM NM ltac:(lia) ltac:(lia)) as (NS & _).
  destruct (normalBetween_exact _ _ _ NS) as (es & Hes & NE).
  exists es. split; [lia | exact NE].
Qed.

Lemma imperial_square (height : float) :
  plausible height ->
  exists es, (-718 <= es <= 614)%Z /\ normalBetween (height * height) es es.
Proof.
  intros Hp. apply plausible_normalBetween in Hp.
  destruct (mul_normalBetween _ _ _ _ _ _ Hp Hp ltac:(lia) ltac:(lia)) as (NS & _).
  destruct (normalBetween_exact _ _ _ NS) as (es & Hes & NE).
  exists es. split; [lia | exact NE].
Qed.

(** C8 (amended): in binary64, for every height between 1e-100 and 1e100 and
    in both modes, the BMI formula maps each end of the healthy range to a
    finite number within the relative distance 2^-49 of its threshold (18.5
    for the low end, the binary64 value of 24.9 for the high end), which
    [toFixed(1)] displays as "18.5", respectively "24.9"; and, up to the
    same relative distance at each end, the range is the interval of the
    weights classified as a healthy weight: a weight between 1e-100 and
    1e100 that is classified so lies in
    [[low (1 - 2^-49), high (1 + 2^-49))], and every such weight in
    [[low (1 + 2^-49), high (1 - 2^-49))] is classified so. *)
Theorem healthy_range_near_thresholds (height : float) :
  plausible height ->
  endsNearThresholds metricBmiAt metricRangeAt height /\
  rangeNearHealthyWeights metricBmiAt metricRangeAt height /\
  endsNearThresholds imperialBmiAt imperialRangeAt height /\
  rangeNearHealthyWeights imperialBmiAt imperialRangeAt height.
Proof.
  intros Hp.
  destruct (metric_square height Hp) as (em & Hem & NM).
  destruct (imperial_square height Hp) as (ei & Hei & NI).
  unfold endsNearThresholds, rangeNearHealthyWeights,
    metricBmiAt, metricRangeAt, imperialBmiAt, imperialRangeAt.
  rewrite !metricBmi_float, !imperialBmi_float. cbv zeta. cbn [fst snd low high].
  change (UNDERWEIGHT BMI_CATEGORIES) with 18.5%float.
  change (HEALTHY BMI_CATEGORIES) with 24.9%float.
  set (sm := (height / 100 * (height / 100))%float) in *.
  set (si := (height * height)%float) in *.
  destruct (metric_end 18.5 sm em normalBetween_18_5 NM Hem) as (NL1 & NB1 & _ & [B1a B1b]).
  destruct (metric_end 24.9 sm em normalBetween_24_9 NM Hem) as (NL2 & NB2 & _ & [B2a B2b]).
  destruct (imperial_end 18.5 si ei normalBetween_18_5 NI Hei) as (NL3 & NB3 & _ & [B3a B3b]).
  destruct (imperial_end 24.9 si ei normalBetween_24_9 NI Hei) as (NL4 & NB4 & _ & [B4a B4b]).
  split; [|split; [|split]].
  - split; [exact (near_intro _ _ _ _ _ _ NB1 normalBetween_18_5 B1a B1b)|].
    split; [exact (near_intro _ _ _ _ _ _ NB2 normalBetween_24_9 B2a B2b)|].
    split; [exact (displays_18_5 _ _ _ NB1 B1a B1b) | exact (displays_24_9 _ _ _ NB2 B2a B2b)].
  - rewrite (normalBetween_finite _ _ _ NL1), (normalBetween_finite _ _ _ NL2).
    intros weight Hw. apply plausible_normalBetween in Hw.
    rewrite (normalBetween_finite _ _ _ Hw).
    exact (metric_interval sm weight em NM Hem Hw).
  - split; [exact (near_intro _ _ _ _ _ _ NB3 normalBetween_18_5 B3a B3b)|].
    split; [exact (near_intro _ _ _ _ _ _ NB4 normalBetween_24_9 B4a B4b)|].
    split; [exact (displays_18_5 _ _ _ NB3 B3a B3b) | exact (displays_24_9 _ _ _ NB4 B4a B4b)].
  - rewrite (normalBetween_finite _ _ _ NL3), (normalBetween_finite _ _ _ NL4).
    intros weight Hw. apply plausible_normalBetween in Hw.
    rewrite (normalBetween_finite _ _ _ Hw).
    exact (imperial_interval si weight ei NI Hei Hw).
Qed.

Lemma healthy_range_near_thresholds_witness :
  plausible 172 /\
  endsNearThresholds metricBmiAt metricRangeAt 172 /\
  rangeNearHealthyWeights imperialBmiAt imperialRangeAt 172.
Proof.
  assert (Hp : plausible 172) by (split; reflexivity).
  split; [exact Hp|].
  destruct (healthy_range_near_thresholds 172 Hp) as (Hm & _ & _ & Hi).
  split; assumption.
Defined.

End HealthyRangeRounding.

(** * Further properties of the script *)

(** ** Event wiring *)

Section Wiring.

Local Open Scope string_scope.

(** X1: every event has exactly one listener: a [change] on a radio runs
    [switchUnitSystem] with that radio's system, an [input] on a metric field
    runs [calculateMetricBMI], an [input] on an imperial field runs
    [calculateImperialBMI], and nothing else runs. *)
Theorem each_event_runs_one_listener (e : Event) :
  listenersFor e =
    [match e with
     | change metricRadio => switchUnitSystem "metric"
     | change imperialRadio => switchUnitSystem "imperial"
     | input metricHeightInput | input metricWeightInput => calculateMetricBMI
     | input _ => calculateImperialBMI
     end].
Proof.
  destruct e as [[|]|[| | | | |]];
    cbv -[calculateMetricBMI calculateImperialBMI switchUnitSystem]; reflexivity.
Qed.

End Wiring.

(** ** What the calculations read and write *)

Section Frame.

Local Open Scope string_scope.
Local Open Scope float_scope.

Lemma metric_readings_setValue_imperial (i : Input) (v : string) (d : Dom) :
  In i imperialInputs ->
  heightCm (setValue i v d) = heightCm d /\ weightKg (setValue i v d) = weightKg d.
Proof.
  intros Hi. simpl in Hi.
  repeat (destruct Hi as [<- | Hi]; [split; reflexivity|]). contradiction.
Qed.

Lemma imperial_totals_setValue_metric (i : Input) (v : string) (d : Dom) :
  In i metricInputs ->
  totalHeightInches (setValue i v d) = totalHeightInches d /\
  totalWeightPounds (setValue i v d) = totalWeightPounds d.
Proof.
  intros Hi. simpl in Hi.
  repeat (destruct Hi as [<- | Hi]; [split; reflexivity|]). contradiction.
Qed.

(** X2: the calculations never change an input field or the display of an
    input group, and each reads the fields of its own group only: it
    commutes with any edit of a field of the other group. *)
Theorem calculations_touch_outputs_only (d : Dom) :
  (forall i, value (calculateMetricBMI d) i = value d i) /\
  (forall i, value (calculateImperialBMI d) i = value d i) /\
  display (calculateMetricBMI d) metricContainer = display d metricContainer /\
  display (calculateMetricBMI d) imperialContainer = display d imperialContainer /\
  display (calculateImperialBMI d) metricContainer = display d metricContainer /\
  display (calculateImperialBMI d) imperialContainer = display d imperialContainer /\
  (forall i v, In i imperialInputs ->
     sameDom (calculateMetricBMI (setValue i v d))
             (setValue i v (calculateMetricBMI d))) /\
  (forall i v, In i metricInputs ->
     sameDom (calculateImperialBMI (setValue i v d))
             (setValue i v (calculateImperialBMI d))).
Proof.
  assert (Hm : forall i v, In i imperialInputs ->
             sameDom (calculateMetricBMI (setValue i v d))
                     (setValue i v (calculateMetricBMI d))).
  { intros i v Hi. rewrite !calculateMetricBMI_guard.
    destruct (metric_readings_setValue_imperial i v d Hi) as [-> ->].
    destruct (_ && _); repeat split. }
  assert (Him : forall i v, In i metricInputs ->
              sameDom (calculateImperialBMI (setValue i v d))
                      (setValue i v (calculateImperialBMI d))).
  { intros i v Hi. rewrite !calculateImperialBMI_guard.
    destruct (imperial_totals_setValue_metric i v d Hi) as [-> ->].
    destruct (_ && _); repeat split. }
  rewrite calculateMetricBMI_guard, calculateImperialBMI_guard.
  repeat split; try (destruct (_ && _); reflexivity);
    first [ apply Hm | apply Him ]; assumption.
Qed.

(** X3: running a calculation a second time changes nothing more. *)
Theorem calculations_idempotent (d : Dom) :
  sameDom (calculateMetricBMI (calculateMetricBMI d)) (calculateMetricBMI d) /\
  sameDom (calculateImperialBMI (calculateImperialBMI d)) (calculateImperialBMI d).
Proof.
  split.
  - rewrite (calculateMetricBMI_guard d).
    destruct ((0 <? heightCm d) && (0 <? weightKg d)) eqn:G.
    + rewrite calculateMetricBMI_guard.
      change (heightCm (updateBmiDisplay _ _ _ d)) with (heightCm d).
      change (weightKg (updateBmiDisplay _ _ _ d)) with (weightKg d).
      rewrite G.
      repeat split; intros x; destruct x; reflexivity.
    + rewrite calculateMetricBMI_guard, G. repeat split.
  - rewrite (calculateImperialBMI_guard d).
    destruct ((0 <? totalHeightInches d) && (0 <? totalWeightPounds d)) eqn:G.
    + rewrite calculateImperialBMI_guard.
      change (totalHeightInches (updateBmiDisplay _ _ _ d)) with (totalHeightInches d).
      change (totalWeightPounds (updateBmiDisplay _ _ _ d)) with (totalWeightPounds d).
      rewrite G.
      repeat split; intros x; destruct x; reflexivity.
    + rewrite calculateImperialBMI_guard, G. repeat split.
Qed.

(** X4: a rendering overwrites the one before it completely: nothing of the
    earlier BMI, classification, range or unit remains. *)
Theorem updateBmiDisplay_overwrites
    (bmi1 bmi2 : float) (r1 r2 : Range float) (unit1 unit2 : string) (d : Dom) :
  sameDom (updateBmiDisplay bmi2 r2 unit2 (updateBmiDisplay bmi1 r1 unit1 d))
          (updateBmiDisplay bmi2 r2 unit2 d).
Proof. repeat split; intros x; destruct x; reflexivity. Qed.

(** X5: with an empty metric field, or with both height fields or both
    weight fields of the imperial group empty, the calculation leaves the
    document as it was; so after a switch of unit system the calculation of
    the group just hidden does nothing. *)
Theorem empty_fields_render_nothing (d : Dom) :
  (value d metricHeightInput = "" \/ value d metricWeightInput = "" ->
   calculateMetricBMI d = d) /\
  ((value d imperialHeightFtInput = "" /\ value d imperialHeightInInput = "") \/
   (value d imperialWeightStInput = "" /\ value d imperialWeightLbsInput = "") ->
   calculateImperialBMI d = d) /\
  calculateMetricBMI (switchUnitSystem "imperial" d) = switchUnitSystem "imperial" d /\
  calculateImperialBMI (switchUnitSystem "metric" d) = switchUnitSystem "metric" d.
Proof.
  split; [|split; [|split]].
  - intros H. rewrite calculateMetricBMI_guard. unfold heightCm, weightKg.
    destruct H as [-> | ->]; [reflexivity|].
    rewrite andb_false_r. reflexivity.
  - intros H. rewrite calculateImperialBMI_guard.
    unfold totalHeightInches, totalWeightPounds, heightFt, heightIn, weightSt, weightLbs.
    destruct H as [[-> ->] | [-> ->]]; [reflexivity|].
    rewrite andb_false_r. reflexivity.
  - rewrite calculateMetricBMI_guard. reflexivity.
  - rewrite calculateImperialBMI_guard. reflexivity.
Qed.

Lemma empty_fields_render_nothing_witness :
  calculateMetricBMI (metricDom "" "70") = metricDom "" "70" /\
  calculateImperialBMI (imperialDom "" "" "11" "4") = imperialDom "" "" "11" "4".
Proof.
  destruct (empty_fields_render_nothing (metricDom "" "70")) as (Hm & _).
  destruct (empty_fields_render_nothing (imperialDom "" "" "11" "4")) as (_ & Hi & _).
  split; [apply Hm; left; reflexivity | apply Hi; left; split; reflexivity].
Defined.

End Frame.

(** ** Switching twice *)

Section SwitchingTwice.

Local Open Scope string_scope.

(** X6: switching to the other unit system and back leaves all six input
    fields empty. *)
Theorem switching_there_and_back_empties_all_fields (d : Dom) (i : Input) :
  value (switchUnitSystem "metric" (switchUnitSystem "imperial" d)) i = "" /\
  value (switchUnitSystem "imperial" (switchUnitSystem "metric" d)) i = "".
Proof. destruct i; split; reflexivity. Qed.

(** X7: switching to the same target twice is the same as switching once,
    for every target string. *)
Theorem switchUnitSystem_idempotent (systemToShow : string) (d : Dom) :
  sameDom (switchUnitSystem systemToShow (switchUnitSystem systemToShow d))
          (switchUnitSystem systemToShow d).
Proof.
  unfold switchUnitSystem.
  destruct (String.eqb systemToShow "metric");
    repeat split; intros x; destruct x; reflexivity.
Qed.

End SwitchingTwice.

(** ** The classification is monotone *)

Section Monotone.

Local Open Scope string_scope.
Local Open Scope float_scope.

Lemma SFleb_ltb_trans (a b c : spec_float) :
  SFleb a b = true -> SFltb b c = true -> SFltb a c = true.
Proof.
  unfold SFleb, SFltb.
  destruct a as [sa|sa| |sa ma ea], b as [sb|sb| |sb mb eb],
           c as [sc|sc| |sc mc ec]; simpl;
    try discriminate; try reflexivity;
    try (destruct sa; try discriminate; try reflexivity);
    try (destruct sb; try discriminate; try reflexivity);
    try (destruct sc; try discriminate; try reflexivity);
    intros H1 H2; FloatOrder.order_cases; simpl in *;
      try discriminate; try reflexivity; try lia.
Qed.

Lemma leb_ltb_trans (x y z : float) :
  (x <=? y) = true -> (y <? z) = true -> (x <? z) = true.
Proof. rewrite leb_spec, !ltb_spec. apply SFleb_ltb_trans. Qed.

(** X8: a larger BMI never gets a lower classification: if a <= b then the
    classification of a comes no later than that of b in the order
    underweight, a healthy weight, overweight, obese. *)
Theorem getWeightClassification_monotone (a b : float) :
  (a <=? b) = true ->
  (bandOf (getWeightClassification a) <= bandOf (getWeightClassification b))%nat.
Proof.
  intros Hab.
  pose proof (leb_ltb_trans a b 18.5 Hab) as T1.
  pose proof (leb_ltb_trans a b 24.9 Hab) as T2.
  pose proof (leb_ltb_trans a b 29.9 Hab) as T3.
  rewrite !getWeightClassification_float.
  destruct (b <? 18.5); [rewrite (T1 eq_refl); apply Nat.le_refl|].
  destruct (b <? 24.9).
  { rewrite (T2 eq_refl). destruct (a <? 18.5); cbn; lia. }
  destruct (b <? 29.9).
  { rewrite (T3 eq_refl). destruct (a <? 18.5), (a <? 24.9); cbn; lia. }
  destruct (a <? 18.5), (a <? 24.9), (a <? 29.9); cbn; lia.
Qed.

Lemma getWeightClassification_monotone_witness :
  (20 <=? 26) = true /\
  (bandOf (getWeightClassification 20%float)
   <= bandOf (getWeightClassification 26%float))%nat.
Proof.
  split; [reflexivity|].
  exact (getWeightClassification_monotone 20 26 eq_refl).
Defined.

End Monotone.

(** ** Rendered values are not negative *)

Section Signs.

Local Open Scope string_scope.
Local Open Scope float_scope.

Lemma binary_round_aux_signClear (mx ex : Z) (lx : location) :
  signClear (binary_round_aux prec emax false mx ex lx).
Proof.
  unfold binary_round_aux.
  destruct (shr_fexp _ _ _ _ _) as [mrs' e'].
  destruct (shr_fexp _ _ _ _ _) as [mrs'' e''].
  destruct (shr_m mrs''); [reflexivity | | exact I].
  destruct (Z.leb _ _); reflexivity.
Qed.

Lemma SFmul_signClear (a b : spec_float) :
  signClear a -> signClear b -> signClear (SFmul prec emax a b).
Proof.
  destruct a as [sa|sa| |sa ma ea], b as [sb|sb| |sb mb eb]; simpl;
    intros Ha Hb; subst; try exact I; try reflexivity.
  apply binary_round_aux_signClear.
Qed.

Lemma SFdiv_signClear (a b : spec_float) :
  signClear a -> signClear b -> signClear (SFdiv prec emax a b).
Proof.
  destruct a as [sa|sa| |sa ma ea], b as [sb|sb| |sb mb eb]; simpl;
    intros Ha Hb; subst; try exact I; try reflexivity.
  destruct (SFdiv_core_binary _ _ _ _ _ _) as [[mz ez] lz].
  apply binary_round_aux_signClear.
Qed.

Lemma mul_signClear (x y : float) :
  signClear (Prim2SF x) -> signClear (Prim2SF y) -> signClear (Prim2SF (x * y)).
Proof. rewrite mul_spec. apply SFmul_signClear. Qed.

Lemma div_signClear (x y : float) :
  signClear (Prim2SF x) -> signClear (Prim2SF y) -> signClear (Prim2SF (x / y)).
Proof. rewrite div_spec. apply SFdiv_signClear. Qed.

Lemma positive_signClear (x : float) : (0 <? x) = true -> signClear (Prim2SF x).
Proof.
  rewrite ltb_spec. change (Prim2SF 0) with (S754_zero false).
  destruct (Prim2SF x) as [s|s| |s m e]; unfold SFltb; simpl;
    try discriminate; destruct s; try discriminate; reflexivity.
Qed.

Lemma signClear_not_negative (x : float) : signClear (Prim2SF x) -> (x <? 0) = false.
Proof.
  rewrite ltb_spec. change (Prim2SF 0) with (S754_zero false).
  destruct (Prim2SF x) as [s|s| |s m e]; unfold SFltb; simpl;
    intros Hs; subst; reflexivity.
Qed.

(** X9: whenever the guard of a calculation holds (height and weight, or the
    two totals, strictly positive), the BMI and both ends of the healthy
    range it passes on are not negative, whatever rounding, underflow or
    overflow occurs on the way. *)
Theorem bmi_and_range_not_negative (height weight : float) :
  (0 <? height) = true -> (0 <? weight) = true ->
  (fst (metricBmi height weight) <? 0) = false /\
  (low (snd (metricBmi height weight)) <? 0) = false /\
  (high (snd (metricBmi height weight)) <? 0) = false /\
  (fst (imperialBmi height weight) <? 0) = false /\
  (low (snd (imperialBmi height weight)) <? 0) = false /\
  (high (snd (imperialBmi height weight)) <? 0) = false.
Proof.
  intros Hh Hw.
  apply positive_signClear in Hh. apply positive_signClear in Hw.
  rewrite metricBmi_float, imperialBmi_float. cbv zeta. cbn [fst snd low high].
  assert (C100 : signClear (Prim2SF 100)) by reflexivity.
  assert (C703 : signClear (Prim2SF 703)) by reflexivity.
  assert (C185 : signClear (Prim2SF 18.5)) by reflexivity.
  assert (C249 : signClear (Prim2SF 24.9)) by reflexivity.
  repeat split; apply signClear_not_negative;
    repeat first [ assumption | apply mul_signClear | apply div_signClear ].
Qed.

Lemma bmi_and_range_not_negative_witness :
  (0 <? 170) = true /\ (0 <? 70) = true /\
  (fst (metricBmi 170 70) <? 0) = false.
Proof.
  split; [reflexivity|]. split; [reflexivity|].
  exact (proj1 (bmi_and_range_not_negative 170 70 eq_refl eq_refl)).
Defined.

End Signs.

(** ** The state of the page over a session *)

Section Sessions.

Local Open Scope string_scope.
Local Open Scope float_scope.

(** Selecting a radio puts any document in the invariant state. *)
Lemma pageInvariant_selectRadio (r : Radio) (d : Dom) :
  pageInvariant (perform (selectRadio r) d).
Proof.
  cbn [perform]. rewrite dispatch_change.
  exists (match r with metricRadio => true | imperialRadio => false end).
  destruct r; (split; [reflexivity|]); (split; [reflexivity|]);
    (split; [|left; split; reflexivity]);
    intros i Hi; destruct i; try discriminate Hi; reflexivity.
Qed.

Lemma value_setValue_other_group (i j : Input) (v : string) (d : Dom) :
  groupOf i <> groupOf j -> value (setValue i v d) j = value d j.
Proof. destruct i, j; intros Hne; try reflexivity; now contradiction Hne. Qed.

(** The invariant passes from [d] to a document [e] that has the same
    displayed group and the same hidden fields, and a display of its own
    that fits. *)
Lemma pageInvariant_holds_after (metricShown : bool) (d e : Dom) :
  display d metricContainer = (if metricShown then "flex" else "none") ->
  display d imperialContainer = (if metricShown then "none" else "flex") ->
  (forall i, groupOf i = (if metricShown then imperialContainer
                          else metricContainer) ->
     value d i = "") ->
  display e metricContainer = display d metricContainer ->
  display e imperialContainer = display d imperialContainer ->
  (forall i, groupOf i = (if metricShown then imperialContainer
                          else metricContainer) ->
     value e i = value d i) ->
  ((display e welcomeContainer = "flex" /\ display e bmiResultContainer = "none") \/
   (exists bmi r,
      shown e =
        [toFixed bmi 1; getWeightClassification bmi;
         toFixed (low r) 1 ++ (if metricShown then "kgs" else "lbs");
         toFixed (high r) 1 ++ (if metricShown then "kgs" else "lbs");
         "none"; "flex"])%string) ->
  pageInvariant e.
Proof.
  intros Hm Hi Hf Hcm Hci Hv Hs. exists metricShown.
  split; [rewrite Hcm; exact Hm|].
  split; [rewrite Hci; exact Hi|].
  split; [|exact Hs].
  intros i Hin. rewrite (Hv i Hin). now apply Hf.
Qed.

(** Typing in a field of the displayed group keeps the invariant. *)
Lemma pageInvariant_typeIn (i : Input) (v : string) (d : Dom) :
  pageInvariant d -> display d (groupOf i) = "flex" ->
  pageInvariant (perform (typeIn i v) d).
Proof.
  intros (m & Hm & Hi & Hf & Hs) Hshown. cbn [perform].
  assert (Hgroup : groupOf i = if m then metricContainer else imperialContainer).
  { destruct i, m; cbn [groupOf] in *; try reflexivity;
      rewrite ?Hm, ?Hi in Hshown; discriminate Hshown. }
  assert (Hother : forall j, groupOf j = (if m then imperialContainer
                                          else metricContainer) ->
                     value (setValue i v d) j = value d j).
  { intros j Hj. apply value_setValue_other_group. rewrite Hgroup, Hj.
    destruct m; discriminate. }
  destruct m.
  - rewrite dispatch_input_metric
      by (destruct i; cbn [groupOf] in Hgroup; try discriminate Hgroup; simpl; auto).
    rewrite calculateMetricBMI_guard.
    apply (pageInvariant_holds_after true d); try assumption.
    + destruct (_ && _); reflexivity.
    + destruct (_ && _); reflexivity.
    + intros j Hj. rewrite <- (Hother j Hj). destruct (_ && _); reflexivity.
    + destruct (_ && _).
      * right. eexists. eexists. apply shown_updateBmiDisplay.
      * exact Hs.
  - rewrite dispatch_input_imperial
      by (destruct i; cbn [groupOf] in Hgroup; try discriminate Hgroup; simpl; auto).
    rewrite calculateImperialBMI_guard.
    apply (pageInvariant_holds_after false d); try assumption.
    + destruct (_ && _); reflexivity.
    + destruct (_ && _); reflexivity.
    + intros j Hj. rewrite <- (Hother j Hj). destruct (_ && _); reflexivity.
    + destruct (_ && _).
      * right. eexists. eexists. apply shown_updateBmiDisplay.
      * exact Hs.
Qed.

(** X10: selecting a radio establishes, from any document, and every session
    of radio selections and of typing in fields of the displayed group keeps,
    this state of the page: exactly one input group is displayed, every field
    of the hidden group (both metric fields, or all four imperial fields) is
    empty, and either the welcome view alone is
    displayed or the results view alone, then with a range in the unit of
    the displayed group. *)
Theorem session_keeps_pageInvariant :
  (forall r d, pageInvariant (perform (selectRadio r) d)) /\
  (forall d0 d, pageInvariant d0 -> session d0 d -> pageInvariant d).
Proof.
  split; [apply pageInvariant_selectRadio|].
  intros d0 d H0 Hs. induction Hs as [|d a Hs IH Hp]; [exact H0|].
  destruct a as [r | i v].
  - apply pageInvariant_selectRadio.
  - apply pageInvariant_typeIn; assumption.
Qed.

Lemma session_keeps_pageInvariant_witness :
  pageInvariant (perform (selectRadio metricRadio) emptyDom) /\
  pageInvariant
    (perform (typeIn metricWeightInput "70")
       (perform (typeIn metricHeightInput "170")
          (perform (selectRadio metricRadio) emptyDom))).
Proof.
  destruct session_keeps_pageInvariant as [Hsel Hkeep].
  split; [apply Hsel|].
  apply (Hkeep (perform (selectRadio metricRadio) emptyDom)); [apply Hsel|].
  apply session_step; [apply session_step; [apply session_start|]|];
    vm_compute; reflexivity.
Defined.

End Sessions.
